(** * abad: a shallow embedding of the lexer, the Bool value and the evaluator

    The Go sources embedded here are [lexer/lex.go], [types/bool.go] and the
    evaluator [abad.go] (its second revision, the one that evaluates against
    a global object).  Packages [internal/utf16], [token], [ast], [builtins]
    and the rest of [types] are not part of the sources; what the embedded
    functions need from them is modelled from the specification and marked
    as such. *)

From Stdlib Require Import NArith Ascii Floats.
From stdpp Require Import base option list gmap strings.

(** ** Package utf16 *)

Module utf16.

(** [type Str []uint16]: a sequence of UTF-16 code units. *)
Definition Str := list N.

(** Modelled from the spec: [utf16.S] / [utf16.NewStr], package
    [internal/utf16] is missing.  On ASCII text every character is one code
    unit holding its code; the development applies it to ASCII text only. *)
Definition S (s : string) : Str :=
  map N_of_ascii (String.list_ascii_of_string s).

Definition NewStr := S.

(** Modelled from the spec: [Str.Equal], element-wise equality. *)
Definition Equal (a b : Str) : bool := bool_decide (a = b).

Fixpoint hasPrefix (s p : Str) : bool :=
  match p, s with
  | [], _ => true
  | _ :: _, [] => false
  | a :: p', b :: s' => (a =? b)%N && hasPrefix s' p'
  end.

(** Modelled from the spec: [Str.Contains], does [sub] occur in [s] as a
    contiguous run of code units. *)
Fixpoint Contains (s sub : Str) : bool :=
  hasPrefix s sub ||
  match s with
  | [] => false
  | _ :: s' => Contains s' sub
  end.

End utf16.

(** ** Package token *)

Module token.

(** Modelled from the spec: the token kinds of package [token] (missing),
    named as the lexer and its tests name them ([Type_] renders the Go name
    [Type], a reserved word here). *)
Inductive Type_ :=
| Decimal | Hexadecimal | String | Ident | LineTerminator
| Dot | Comma | LParen | RParen | Plus | Minus
| Illegal | EOF.

#[global] Instance Type_eq_dec : EqDecision Type_.
Proof. solve_decision. Defined.

End token.

(** ** Package lexer (lexer/lex.go) *)

Module lexer.
Import utf16.

(** [Type_] renders the Go name [Type], a reserved word here. *)
Record Tokval := mkTokval { Type_ : token.Type_; Value : Str }.

#[global] Instance Tokval_eq_dec : EqDecision Tokval.
Proof. solve_decision. Defined.

(** [var EOF Tokval = Tokval{ Type: token.EOF }]: the value is the nil
    slice. *)
Definition EOF : Tokval := {| Type_ := token.EOF; Value := [] |}.

Definition Tokval_Equal (t other : Tokval) : bool :=
  bool_decide (Type_ t = Type_ other) && Equal (Value t) (Value other).

Definition numbers : Str := NewStr "0123456789".
Definition dot : Str := NewStr ".".
Definition exponents : Str := NewStr "eE".
Definition hexStart : Str := NewStr "xX".

Definition strFromChar (utf16char : N) : Str := [utf16char].

Definition isNumber (utf16char : N) : bool :=
  Contains numbers (strFromChar utf16char).

Definition isEOF (code : Str) (position : nat) : bool :=
  bool_decide (length code ≤ position)%nat.

Definition isDot (utf16char : N) : bool :=
  Equal dot (strFromChar utf16char).

Definition isHexStart (utf16char : N) : bool :=
  Contains hexStart (strFromChar utf16char).

(** [code[i]].  Go panics when [i] is out of range; every use below sits
    behind a length or [isEOF] test (see [index_in_range]), so the default
    is never read. *)
Definition index (code : Str) (i : nat) : N := default 0%N (code !! i).

(** [type lexerState func() (Tokval, lexerState)].  The only closure the
    package ever builds is the one [initialState(code)] returns, which
    captures [code]; a state is that captured code, and Go's nil state is
    [None]. *)
Inductive lexerState := initialState (code : Str).

(** The loop [for !isEOF(code, position) { position += 1 }] shared by
    [hexadecimalState] and [decimalState]; [n] bounds the iterations. *)
Fixpoint toEOF (n : nat) (code : Str) (position : nat) : nat :=
  match n with
  | O => position
  | Datatypes.S n' =>
      if isEOF code position then position
      else toEOF n' code (Datatypes.S position)
  end.

Definition illegalToken (code : Str) : Tokval * option lexerState :=
  ({| Type_ := token.Illegal; Value := code |}, None).

Definition hexadecimalState (code : Str) (position : nat)
  : Tokval * option lexerState :=
  let position := toEOF (length code - position) code position in
  ({| Type_ := token.Hexadecimal; Value := code |},
   Some (initialState (drop position code))).

Definition decimalState (code : Str) (position : nat)
  : Tokval * option lexerState :=
  let position := toEOF (length code - position) code position in
  ({| Type_ := token.Decimal; Value := code |},
   Some (initialState (drop position code))).

Definition numberState (code : Str) (position : nat)
  : Tokval * option lexerState :=
  if isEOF code position then
    ({| Type_ := token.Decimal; Value := code |},
     Some (initialState (drop position code)))
  else if isNumber (index code position) || isDot (index code position) then
    decimalState code (position + 1)
  else if isHexStart (index code position) then
    if isEOF code (position + 1) then illegalToken code
    else hexadecimalState code position
  else illegalToken code.

(** Calling the closure that [initialState(code)] returned. *)
Definition call (st : lexerState) : Tokval * option lexerState :=
  match st with
  | initialState code =>
      if bool_decide (length code = 0) then (EOF, None)
      else if isNumber (index code 0) then numberState code 1
      else if isDot (index code 0) then decimalState code 1
      else (EOF, None)
  end.

(** The goroutine's loop [for currentState != nil]: the tokens sent on the
    channel, in order, until it is closed.  [None] when [fuel] iterations do
    not reach the nil state. *)
Fixpoint run (fuel : nat) (currentState : option lexerState)
  : option (list Tokval) :=
  match currentState with
  | None => Some []
  | Some st =>
      match fuel with
      | O => None
      | Datatypes.S fuel' =>
          let '(token, newState) := call st in
          cons token <$> run fuel' newState
      end
  end.

(** What a consumer that drains the channel of [Lex(code)] receives. *)
Definition Lex (code : Str) : option (list Tokval) :=
  run (2 + length code) (Some (initialState code)).

End lexer.

(** ** Package types *)

Module types.
Import utf16.

(** [type Bool bool] (types/bool.go) *)
Definition Bool := bool.

Module Bool_.
Definition True : Bool := true.
Definition False : Bool := false.
Definition NewBool (b : bool) : Bool := b.
Definition IsTrue (b : Bool) : bool := b.
Definition IsFalse (b : Bool) : bool := b.
Definition ToBool (b : Bool) : Bool := b.
Definition Equal (b a : Bool) : bool := bool_decide (b = a).
End Bool_.

(** Modelled from the spec: the value kinds (the rest of package [types] is
    missing). *)
Inductive Kind :=
| KindUndefined | KindNull | KindBool | KindNumber | KindString | KindObject.

#[global] Instance Kind_eq_dec : EqDecision Kind.
Proof. solve_decision. Defined.

(** Addresses of property maps, and the names of the Go implementations
    behind [Function.Call]. *)
Definition loc := positive.
Definition FunId := string.

(** Modelled from the spec: an [Object] interface value, which is a dynamic
    type together with a pointer.  A [DataObject] is the plain object
    [*types.DataObject]; a [Builtin] is an object whose dynamic type also
    has the method [Call], that is, one that satisfies [types.Function]. *)
Inductive Object :=
| DataObject (p : loc)
| Builtin (f : FunId) (p : loc).

Definition ptr (o : Object) : loc :=
  match o with DataObject p | Builtin _ p => p end.

(** Modelled from the spec: a [types.Value] interface value.  [Nil] is Go's
    nil interface, which is what an empty [Program] evaluates to. *)
Inductive Value :=
| Nil
| VNumber (n : float)
| VString (s : Str)
| VBool (b : Bool)
| VNull
| VUndefined
| VObject (o : Object).

(** [v.Kind()]; [None] stands for the run-time panic of a method call on
    the nil interface. *)
Definition Kind_of (v : Value) : option Kind :=
  match v with
  | Nil => None
  | VNumber _ => Some KindNumber
  | VString _ => Some KindString
  | VBool _ => Some KindBool
  | VNull => Some KindNull
  | VUndefined => Some KindUndefined
  | VObject _ => Some KindObject
  end.

(** Modelled from the spec: [StrictEqual(a, b)] holds iff the kinds agree
    and the underlying values compare equal; numbers compare as IEEE-754
    doubles do (NaN differs from itself, the two zeros are equal), objects
    by identity. *)
Definition StrictEqual (a b : Value) : bool :=
  match a, b with
  | VNumber x, VNumber y => PrimFloat.eqb x y
  | VString x, VString y => utf16.Equal x y
  | VBool x, VBool y => Bool_.Equal x y
  | VNull, VNull => true
  | VUndefined, VUndefined => true
  | VObject (DataObject p), VObject (DataObject q) => bool_decide (p = q)
  | VObject (Builtin f p), VObject (Builtin g q) =>
      bool_decide (f = g) && bool_decide (p = q)
  | _, _ => false
  end.

(** Modelled from the spec: a property record. *)
Record Property := mkProperty {
  value : Value;
  writable : bool;
  enumerable : bool;
  configurable : bool
}.

(** The rendering [fmt] gives a value under the verb [%s] (its [String]
    method); the renderings themselves belong to the missing packages. *)
Class Stringer (A : Type) := sprint : A -> string.

(** What running a Go function yields: a result, a returned [error] (its
    message), or a panic. *)
Inductive outcome (A : Type) :=
| Ok (a : A)
| Err (msg : string)
| Panic (msg : string).
Arguments Ok {A} a.
Arguments Err {A} msg.
Arguments Panic {A} msg.

Section World.
(** Whatever else the built-in functions can read and write (the console,
    for one). *)
Context {Ext : Type}.

(** The mutable store: the property map behind every object pointer, and
    the state of the collaborators.  The insertion order of the properties
    plays no part in what is embedded, so the map keeps none. *)
Record World := mkWorld {
  heap : gmap loc (gmap Str Property);
  ext : Ext
}.

(** A Go function run against the store. *)
Definition M (A : Type) : Type := World -> outcome A * World.

Definition ret {A} (a : A) : M A := fun w => (Ok a, w).
Definition fail {A} (msg : string) : M A := fun w => (Err msg, w).
Definition panic {A} (msg : string) : M A := fun w => (Panic msg, w).

Definition bind {A B} (m : M A) (k : A -> M B) : M B :=
  fun w =>
    match m w with
    | (Ok a, w') => k a w'
    | (Err e, w') => (Err e, w')
    | (Panic p, w') => (Panic p, w')
    end.

Definition nilDereference : string :=
  "invalid memory address or nil pointer dereference".

(** Modelled from the spec: [obj.Get(name)] returns the stored value, or
    Undefined when the property is absent, and never an error. *)
Definition Get (o : Object) (name : Str) : M Value :=
  fun w =>
    match heap w !! ptr o with
    | None => (Panic nilDereference, w)
    | Some props =>
        match props !! name with
        | Some p => (Ok (value p), w)
        | None => (Ok VUndefined, w)
        end
    end.

(** The type assertion [obj.(types.Function)]. *)
Definition asFunction (o : Object) : option FunId :=
  match o with
  | Builtin f _ => Some f
  | DataObject _ => None
  end.
End World.
Arguments World : clear implicits.
Arguments M : clear implicits.

End types.

Declare Scope go_scope.
Delimit Scope go_scope with go.
Notation "'let*' x ':=' c 'in' k" := (types.bind c (fun x => k))
  (at level 10, x name, c at level 100, k at level 200) : go_scope.

(** ** Package ast *)

Module ast.
Import utf16.

(** Modelled from the spec: the node variants of package [ast] (missing).
    [Ident] is a [utf16.Str]; the operator of a unary expression is a
    [token.Type]. *)
#[warnings="-register-all"]
Inductive Node :=
| Program (Nodes : list Node)
| Number (value : float) (isInt : bool)
| String (s : Str)
| Bool (b : bool)
| Null
| Undefined
| Ident (name : Str)
| UnaryExpr (Operator : token.Type_) (Operand : Node)
| MemberExpr (Object : Node) (Property : Str)
| CallExpr (Callee : Node) (Args : list Node)
| VarDecl (Name : Str) (Value : Node)
| VarDecls (Vars : list (Str * Node))
| FunDecl (Name : Str) (Args : list Str) (Body : Node).

(** Modelled from the spec: [ast.IsExpr]; the expressions of the grammar
    are the literals, identifiers and unary, member and call expressions. *)
Definition IsExpr (n : Node) : bool :=
  match n with
  | Number _ _ | String _ | Bool _ | Null | Undefined | Ident _
  | UnaryExpr _ _ | MemberExpr _ _ | CallExpr _ _ => true
  | Program _ | VarDecl _ _ | VarDecls _ | FunDecl _ _ _ => false
  end.

End ast.

(** ** Package abad (the evaluator) *)

Module abad.
Import utf16 types.
Local Open Scope go_scope.

(** [type Abad struct { filename string; global *types.DataObject }] *)
Record Abad := mkAbad { filename : string; global : loc }.

Section Evaluator.
Context {Ext : Type}.

(** [fun.Call(this, args)] for the implementation named [f]: Go code of
    the built-ins, free to read and write the whole store. *)
Context (Call : FunId -> Object -> list Value -> World Ext
                -> Value * World Ext).

Context `{!Stringer Str, !Stringer Value, !Stringer Kind,
          !Stringer token.Type_, !Stringer ast.Node}.

(** What [ToObject] does on a primitive: boxing is declared but not
    implemented, so it is left open. *)
Context (boxPrimitive : Value -> M Ext Object).

(** Modelled from the spec: [v.ToObject()] returns an object as it is; on
    the nil interface the method call panics. *)
Definition ToObject (v : Value) : M Ext Object :=
  match v with
  | Nil => panic nilDereference
  | VObject o => ret o
  | _ => boxPrimitive v
  end.

(** [objval.Kind()] as a step of the evaluator. *)
Definition KindM (v : Value) : M Ext Kind :=
  match Kind_of v with
  | Some k => ret k
  | None => panic nilDereference
  end.

(** [fun.Call(obj, args)] run against the store. *)
Definition invoke (f : FunId) (obj : Object) (args : list Value)
  : M Ext Value :=
  fun w => let '(v, w') := Call f obj args w in (Ok v, w').

Variable a : Abad.

Section Rules.
(** The two mutually recursive entry points, tied below. *)
Variables eval evalExpr : ast.Node -> M Ext Value.

Fixpoint evalProgram_loop (nodes : list ast.Node) (result : Value)
  : M Ext Value :=
  match nodes with
  | [] => ret result
  | node :: rest =>
      let* result := eval node in
      evalProgram_loop rest result
  end.

Definition evalProgram (stmts : list ast.Node) : M Ext Value :=
  evalProgram_loop stmts Nil.

Definition evalUnaryExpr (Operator : token.Type_) (Operand : ast.Node)
  : M Ext Value :=
  let op := Operator in
  let* obj := eval Operand in
  match obj with
  | VNumber num =>
      match op with
      | token.Minus => ret (VNumber (- num))
      | token.Plus => ret (VNumber num)
      | _ => fail ("unsupported unary operator: " +:+ sprint op)
      end
  | _ => fail ("not a number: " +:+ sprint obj)
  end.

Definition evalIdentExpr (ident : Str) : M Ext Value :=
  let* val := Get (DataObject (global a)) ident in
  if StrictEqual val VUndefined then
    fail (sprint ident +:+ " is not defined")
  else ret val.

Definition evalMemberExpr (Object Property : _) : M Ext Value :=
  let* objval := evalExpr Object in
  let* k := KindM objval in
  if bool_decide (k ≠ KindObject) then
    panic "wrapping primitive values not implemented yet"
  else
    let* obj := ToObject objval in
    Get obj Property.

Fixpoint evalArgs_loop (args : list ast.Node) (vargs : list Value)
  : M Ext (list Value) :=
  match args with
  | [] => ret vargs
  | arg :: rest =>
      let* v := evalExpr arg in
      evalArgs_loop rest (vargs ++ [v])
  end.

Definition evalArgs (args : list ast.Node) : M Ext (list Value) :=
  evalArgs_loop args [].

Definition evalCallExpr (Callee : ast.Node) (Args : list ast.Node)
  : M Ext Value :=
  let* objval := evalExpr Callee in
  let* obj := ToObject objval in
  match asFunction obj with
  | None =>
      let* k := KindM objval in
      fail (sprint k +:+ " is not a function")
  | Some fun_ =>
      let* args := evalArgs Args in
      invoke fun_ obj args
  end.

(** The [switch n.Type()] of [evalExpr]. *)
Definition evalExpr_switch (n : ast.Node) : M Ext Value :=
  match n with
  | ast.Number val _ => ret (VNumber val)
  | ast.Ident val => evalIdentExpr val
  | ast.MemberExpr o p => evalMemberExpr o p
  | ast.CallExpr c args => evalCallExpr c args
  | ast.UnaryExpr op e => evalUnaryExpr op e
  | _ => panic "unreachable"
  end.
End Rules.

Fixpoint eval (n : ast.Node) : M Ext Value :=
  if ast.IsExpr n then evalExpr_switch eval evalExpr n
  else
    match n with
    | ast.Program Nodes => evalProgram eval Nodes
    | _ => panic ("AST(" +:+ sprint n +:+ ") not implemented")
    end
with evalExpr (n : ast.Node) : M Ext Value :=
  if negb (ast.IsExpr n) then panic "internal error: not an expression"
  else evalExpr_switch eval evalExpr n.

End Evaluator.

(** [evaluated f nodes w vs w']: running [f] on [nodes] from left to right,
    starting in store [w], succeeds on every node, yields the values [vs] in
    that order and leaves the store [w'].  Each node runs in the store its
    left neighbour left behind. *)
Inductive evaluated {Ext} (f : ast.Node -> M Ext Value)
  : list ast.Node -> World Ext -> list Value -> World Ext -> Prop :=
| evaluated_nil w : evaluated f [] w [] w
| evaluated_cons n ns w v w1 vs w2 :
    f n w = (Ok v, w1) ->
    evaluated f ns w1 vs w2 ->
    evaluated f (n :: ns) w (v :: vs) w2.

(** The two ways a Go function does not come back with a result. *)
Inductive failure :=
| Returned (err : string)
| Panicked (msg : string).

Definition raise {A} (x : failure) : outcome A :=
  match x with
  | Returned err => Err err
  | Panicked msg => Panic msg
  end.

(** [stopped f nodes w x w']: running [f] on [nodes] from left to right,
    starting in store [w], meets a node that does not succeed; [x] and [w']
    are the failure and the store of the first such node, and nothing to its
    right is run. *)
Inductive stopped {Ext} (f : ast.Node -> M Ext Value)
  : list ast.Node -> World Ext -> failure -> World Ext -> Prop :=
| stopped_here n ns w x w1 :
    f n w = (raise x, w1) -> stopped f (n :: ns) w x w1
| stopped_later n ns w v w1 x w2 :
    f n w = (Ok v, w1) ->
    stopped f ns w1 x w2 ->
    stopped f (n :: ns) w x w2.

End abad.

(** ** A concrete interpreter, for running the model

    An instance of everything the evaluator leaves open: the store keeps a
    log of the calls the built-ins received, [console.log] is the one
    built-in, renderings are plain, and boxing a primitive fails. *)

Module demo.
Import utf16 types abad.

(** The calls received, oldest first: the built-in and its arguments. *)
Definition Ext := list (FunId * list Value).

Definition Call (f : FunId) (this : Object) (args : list Value)
    (w : World Ext) : Value * World Ext :=
  (VUndefined, {| heap := heap w; ext := ext w ++ [(f, args)] |}).

Definition showStr : Stringer Str :=
  fun s => String.string_of_list_ascii (map ascii_of_N s).

Definition showKind : Stringer Kind :=
  fun k =>
    match k with
    | KindUndefined => "undefined"
    | KindNull => "null"
    | KindBool => "boolean"
    | KindNumber => "number"
    | KindString => "string"
    | KindObject => "object"
    end.

Definition showValue : Stringer Value :=
  fun v =>
    match v with
    | Nil => "%!s(<nil>)"
    | VNumber _ => "[number]"
    | VString s => showStr s
    | VBool true => "true"
    | VBool false => "false"
    | VNull => "null"
    | VUndefined => "undefined"
    | VObject _ => "[object]"
    end.

Definition showType : Stringer token.Type_ := fun _ => "[token]".
Definition showNode : Stringer ast.Node := fun _ => "[node]".

Definition boxPrimitive (v : Value) : M Ext Object :=
  fail "not implemented".

Definition a : Abad := {| filename := "tests.js"; global := 1%positive |}.

Definition plain (v : Value) : Property := mkProperty v true true true.

(** The store after [setup]: the global object holds [console], whose
    [log] is a built-in function. *)
Definition w0 : World Ext :=
  {| heap :=
       {[ 1%positive := {[ S "console" := plain (VObject (DataObject 2%positive)) ]};
          2%positive :=
            {[ S "log" := plain (VObject (Builtin "console.log" 3%positive)) ]};
          3%positive := ∅ ]};
     ext := [] |}.

Definition eval : ast.Node -> M Ext Value :=
  abad.eval Call (Stringer0 := showStr) (Stringer1 := showValue)
    (Stringer2 := showKind) (Stringer3 := showType) (Stringer4 := showNode)
    boxPrimitive a.

Definition evalExpr : ast.Node -> M Ext Value :=
  abad.evalExpr Call (Stringer0 := showStr) (Stringer1 := showValue)
    (Stringer2 := showKind) (Stringer3 := showType) (Stringer4 := showNode)
    boxPrimitive a.

Definition one : ast.Node := ast.Number 1 true.
Definition two : ast.Node := ast.Number 2 true.
Definition zzz : ast.Node := ast.Ident (S "zzz").
Definition console : ast.Node := ast.Ident (S "console").
Definition console_log : ast.Node := ast.MemberExpr console (S "log").
Definition log : Object := Builtin "console.log" 3%positive.

End demo.

(** ** The lexer with Go's bounds checks written out

    The same state functions as in [lexer], where an index expression
    [code[i]] and a slice expression [code[i:]] answer [None] when Go would
    panic (index out of range, slice bounds out of range). *)

Module checked.
Import utf16 lexer.

(** [code[i]] *)
Definition at_ (code : Str) (i : nat) : option N := code !! i.

(** [code[position:]] *)
Definition from (code : Str) (position : nat) : option Str :=
  if bool_decide (position ≤ length code)%nat then Some (drop position code)
  else None.

Definition hexadecimalState (code : Str) (position : nat)
  : option (Tokval * option lexerState) :=
  let position := toEOF (length code - position) code position in
  rest ← from code position;
  Some ({| Type_ := token.Hexadecimal; Value := code |},
        Some (initialState rest)).

Definition decimalState (code : Str) (position : nat)
  : option (Tokval * option lexerState) :=
  let position := toEOF (length code - position) code position in
  rest ← from code position;
  Some ({| Type_ := token.Decimal; Value := code |},
        Some (initialState rest)).

Definition numberState (code : Str) (position : nat)
  : option (Tokval * option lexerState) :=
  if isEOF code position then
    rest ← from code position;
    Some ({| Type_ := token.Decimal; Value := code |},
          Some (initialState rest))
  else
    c ← at_ code position;
    if isNumber c || isDot c then decimalState code (position + 1)
    else if isHexStart c then
      if isEOF code (position + 1) then Some (illegalToken code)
      else hexadecimalState code position
    else Some (illegalToken code).

Definition call (st : lexerState) : option (Tokval * option lexerState) :=
  match st with
  | initialState code =>
      if bool_decide (length code = 0) then Some (EOF, None)
      else
        c ← at_ code 0;
        if isNumber c then numberState code 1
        else if isDot c then decimalState code 1
        else Some (EOF, None)
  end.

(** The loop of [Lex]; the outer [None] is a panic, the inner one is fuel
    that ran out. *)
Fixpoint run (fuel : nat) (currentState : option lexerState)
  : option (option (list Tokval)) :=
  match currentState with
  | None => Some (Some [])
  | Some st =>
      match fuel with
      | O => Some None
      | Datatypes.S fuel' =>
          match call st with
          | None => None
          | Some (token, newState) =>
              match run fuel' newState with
              | None => None
              | Some toks => Some (cons token <$> toks)
              end
          end
      end
  end.

End checked.

(** ** The rest of types/bool.go *)

Module Bool_conv.
Import utf16 types.

(** Modelled from the spec: [types.Number] is a float64 and [NewNumber]
    wraps one; [types.String] is a [utf16.Str] and [NewString] encodes a Go
    string. *)
Definition NewNumber (n : float) : float := n.
Definition NewString (s : string) : Str := S s.

Definition Kind (b : Bool) : Kind := KindBool.

Definition ToNumber (b : Bool) : float :=
  if b then NewNumber 1 else NewNumber 0.

Definition ToString (b : Bool) : Str :=
  if b then NewString "true" else NewString "false".

End Bool_conv.

(** ** Shapes of syntax trees *)

Module shape.

(** No call expression anywhere in the tree. *)
Fixpoint callFree (n : ast.Node) : bool :=
  match n with
  | ast.Program Nodes => forallb callFree Nodes
  | ast.UnaryExpr _ e => callFree e
  | ast.MemberExpr o _ => callFree o
  | ast.CallExpr _ _ => false
  | _ => true
  end.


(** The nodes the second revision has no rule for. *)
Definition unsupported (n : ast.Node) : bool :=
  match n with
  | ast.String _ | ast.Bool _ | ast.Null | ast.Undefined
  | ast.VarDecl _ _ | ast.VarDecls _ | ast.FunDecl _ _ _ => true
  | _ => false
  end.

End shape.

(** ** Package abad, first revision (abad.go, lines 1 to 114)

    The evaluator before the global object: variables live in a Go map
    that evaluation only reads, so evaluation is a function of the tree. *)

Module abad0.
Import utf16 types.

(** [type Abad struct { filename string; vars map[string]types.Value }] *)
Record Abad := mkAbad { filename : string; vars : gmap string Value }.

Definition NewAbad (filename : string) : Abad :=
  {| filename := filename; vars := {[ "a" := VNumber 666 ]} |}.

Definition obind {A B} (o : outcome A) (k : A -> outcome B) : outcome B :=
  match o with
  | Ok a => k a
  | Err e => Err e
  | Panic p => Panic p
  end.

Section Evaluator.
Context `{!Stringer Str, !Stringer Value, !Stringer token.Type_,
          !Stringer ast.Node}.
Variable a : Abad.

(** [a.vars[ident.String()]], and [%s] of the identifier in the message. *)
Definition evalIdentExpr (ident : Str) : outcome Value :=
  match vars a !! sprint ident with
  | None => Err (sprint ident +:+ " is not defined")
  | Some val => Ok val
  end.

Section Rules.
Variable eval : ast.Node -> outcome Value.

Fixpoint evalProgram_loop (nodes : list ast.Node) (result : Value)
  : outcome Value :=
  match nodes with
  | [] => Ok result
  | node :: rest =>
      obind (eval node) (fun result => evalProgram_loop rest result)
  end.

Definition evalProgram (stmts : list ast.Node) : outcome Value :=
  evalProgram_loop stmts Nil.

Definition evalUnaryExpr (Operator : token.Type_) (Operand : ast.Node)
  : outcome Value :=
  let op := Operator in
  obind (eval Operand) (fun obj =>
    match obj with
    | VNumber num =>
        match op with
        | token.Minus => Ok (VNumber (- num))
        | token.Plus => Ok (VNumber num)
        | _ => Err ("unsupported unary operator: " +:+ sprint op)
        end
    | _ => Err ("not a number: " +:+ sprint obj)
    end).
End Rules.

Fixpoint eval (n : ast.Node) : outcome Value :=
  match n with
  | ast.Program Nodes => evalProgram eval Nodes
  | ast.Number val _ => Ok (VNumber val)
  | ast.Ident val => evalIdentExpr val
  | ast.UnaryExpr op e => evalUnaryExpr eval op e
  | _ => Panic ("AST(" +:+ sprint n +:+ ") not implemented")
  end.

End Evaluator.

End abad0.

(** ** Building the interpreter ([NewAbad] and [setup], second revision) *)

Module construction.
Import utf16 types abad.
Local Open Scope go_scope.

Definition consoleAttr : Str := S "console".

Section Setup.
Context {Ext : Type}.

(** [builtins.NewConsole()]: Go code of the missing package [builtins]. *)
Context (NewConsole : M Ext Value).

(** The property record [Put] stores for a value and a writable flag; the
    specification does not say what the other two flags become. *)
Context (newProperty : Value -> bool -> Property).

(** Modelled from the spec: [types.NewBaseDataObject()] makes a new object
    with no property, at an address no object has yet. *)
Definition NewBaseDataObject : M Ext loc :=
  fun w =>
    let p := fresh (dom (heap w)) in
    (Ok p, {| heap := <[p := ∅]> (heap w); ext := ext w |}).

(** Modelled from the spec: [obj.Put(name, value, writable)] inserts or
    overwrites the property record for [name] and returns no error. *)
Definition Put (o : Object) (name : Str) (v : Value) (wr : bool)
  : M Ext unit :=
  fun w =>
    match heap w !! ptr o with
    | None => (Panic nilDereference, w)
    | Some props =>
        (Ok tt,
         {| heap := <[ptr o := <[name := newProperty v wr]> props]> (heap w);
            ext := ext w |})
    end.

(** [func (a *Abad) setup() error]; the pointer it stores in [a.global] is
    returned. *)
Definition setup : M Ext loc :=
  let* console := NewConsole in
  let* global := NewBaseDataObject in
  let* _ := Put (DataObject global) consoleAttr console true in
  ret global.

Definition NewAbad (filename : string) : M Ext Abad :=
  let* global := setup in
  ret {| abad.filename := filename; abad.global := global |}.

End Setup.

End construction.

(** ** More concrete inputs *)

Module samples.
Import utf16 types abad.

(** [console.foo], a property the console does not have. *)
Definition console_foo : ast.Node := ast.MemberExpr demo.console (S "foo").

(** A first-revision interpreter with no variable, and a second-revision
    one whose global object has no property. *)
Definition a0 : abad0.Abad := {| abad0.filename := "tests.js"; abad0.vars := ∅ |}.


(** A console constructor that hands out the built-in of [demo], and the
    property record with every flag but [writable] set. *)
Definition NewConsole : M demo.Ext Value :=
  fun w => (Ok (VObject demo.log), w).

Definition newProperty (v : Value) (wr : bool) : Property :=
  mkProperty v wr true true.

End samples.

(** * Facts about the lexer *)

Section LexerFacts.
Import utf16 lexer.

Lemma isEOF_true code position :
  isEOF code position = true <-> (length code ≤ position)%nat.
Proof. unfold isEOF. apply bool_decide_eq_true. Qed.

Lemma isEOF_false code position :
  isEOF code position = false <-> (position < length code)%nat.
Proof. unfold isEOF. rewrite bool_decide_eq_false. lia. Qed.

(** Behind a failed [isEOF] test the index is in range. *)
Lemma index_in_range code position :
  isEOF code position = false ->
  code !! position = Some (index code position).
Proof.
  intros H%isEOF_false. unfold index.
  destruct (code !! position) as [c|] eqn:E; [reflexivity|].
  apply lookup_ge_None in E. lia.
Qed.

(** The scanning loop stops, and stops at the end of the input. *)
Lemma toEOF_spec n code position :
  (length code - position ≤ n)%nat ->
  toEOF n code position = Nat.max position (length code).
Proof.
  revert position. induction n as [|n IH]; intros position Hn; simpl.
  - lia.
  - destruct (isEOF code position) eqn:E.
    + apply isEOF_true in E. lia.
    + apply isEOF_false in E. rewrite IH by lia. lia.
Qed.

Lemma toEOF_exits code position :
  isEOF code (toEOF (length code - position) code position) = true.
Proof. rewrite toEOF_spec by lia. apply isEOF_true. lia. Qed.

Lemma rest_after_toEOF code position :
  drop (toEOF (length code - position) code position) code = [].
Proof. apply drop_ge. rewrite toEOF_spec by lia. lia. Qed.

Lemma decimalState_eq code position :
  decimalState code position =
  (mkTokval token.Decimal code, Some (initialState [])).
Proof. unfold decimalState. cbv zeta. now rewrite rest_after_toEOF. Qed.

Lemma hexadecimalState_eq code position :
  hexadecimalState code position =
  (mkTokval token.Hexadecimal code, Some (initialState [])).
Proof. unfold hexadecimalState. cbv zeta. now rewrite rest_after_toEOF. Qed.

(** The four shapes a step of the machine can take. *)
Inductive step_shape (code : Str) : Tokval * option lexerState -> Prop :=
| shape_eof : step_shape code (EOF, None)
| shape_decimal :
    step_shape code (mkTokval token.Decimal code, Some (initialState []))
| shape_hexadecimal :
    step_shape code (mkTokval token.Hexadecimal code, Some (initialState []))
| shape_illegal : step_shape code (mkTokval token.Illegal code, None).

Lemma numberState_shape code position :
  step_shape code (numberState code position).
Proof.
  unfold numberState.
  destruct (isEOF code position) eqn:E.
  - apply isEOF_true in E. rewrite drop_ge by lia. constructor.
  - destruct (isNumber _ || isDot _).
    + rewrite decimalState_eq. constructor.
    + destruct (isHexStart _); [|constructor].
      destruct (isEOF code (position + 1)); [constructor|].
      rewrite hexadecimalState_eq. constructor.
Qed.

Lemma call_shape code : step_shape code (call (initialState code)).
Proof.
  simpl. case_bool_decide; [constructor|].
  destruct (isNumber _); [apply numberState_shape|].
  destruct (isDot _); [|constructor].
  rewrite decimalState_eq. constructor.
Qed.

Lemma call_empty : call (initialState []) = (EOF, None).
Proof. reflexivity. Qed.

Lemma run_nil fuel : run fuel None = Some [].
Proof. destruct fuel; reflexivity. Qed.

Lemma run_step fuel code :
  run (Datatypes.S fuel) (Some (initialState code)) =
  cons (call (initialState code)).1
    <$> run fuel (call (initialState code)).2.
Proof. cbn [run]. destruct (call (initialState code)). reflexivity. Qed.

(** The streams the loop can produce, whatever the fuel. *)
Lemma run_shape fuel code toks :
  run fuel (Some (initialState code)) = Some toks ->
  toks = [EOF] \/
  toks = [mkTokval token.Decimal code; EOF] \/
  toks = [mkTokval token.Hexadecimal code; EOF] \/
  toks = [mkTokval token.Illegal code].
Proof.
  destruct fuel as [|fuel]; [discriminate|]. rewrite run_step.
  destruct (call_shape code); cbn [fst snd].
  - rewrite run_nil. intros [= <-]. auto.
  - destruct fuel as [|fuel]; [discriminate|].
    rewrite run_step, call_empty. cbn [fst snd]. rewrite run_nil.
    intros [= <-]. auto.
  - destruct fuel as [|fuel]; [discriminate|].
    rewrite run_step, call_empty. cbn [fst snd]. rewrite run_nil.
    intros [= <-]. auto.
  - rewrite run_nil. intros [= <-]. auto 6.
Qed.

(** Two iterations always reach the nil state: [Lex] is total, and more
    fuel changes nothing. *)
Lemma run_two fuel code :
  run (Datatypes.S (Datatypes.S fuel)) (Some (initialState code)) =
  run 2 (Some (initialState code)).
Proof.
  rewrite !run_step.
  destruct (call_shape code); cbn [fst snd]; rewrite ?run_nil;
    rewrite ?run_step, ?call_empty; cbn [fst snd]; rewrite ?run_nil;
    reflexivity.
Qed.

Lemma run_enough fuel code :
  (2 ≤ fuel)%nat -> run fuel (Some (initialState code)) = Lex code.
Proof.
  intros Hf. unfold Lex.
  destruct fuel as [|[|fuel]]; [exfalso; lia..|].
  change (2 + length code)%nat with (Datatypes.S (Datatypes.S (length code))).
  now rewrite (run_two fuel), (run_two (length code)).
Qed.

Lemma Lex_total code : exists toks, Lex code = Some toks.
Proof.
  rewrite <- (run_enough 2) by lia. rewrite !run_step.
  destruct (call_shape code); cbn [fst snd]; rewrite ?run_nil;
    rewrite ?run_step, ?call_empty; cbn [fst snd]; rewrite ?run_nil;
    cbn; eauto.
Qed.

End LexerFacts.

Section LexerClaims.
Import utf16 lexer.

Lemma isNumber_spec c : isNumber c = true <-> (48 ≤ c ≤ 57)%N.
Proof.
  unfold isNumber, strFromChar. cbn.
  rewrite !orb_true_iff, !andb_true_iff, !N.eqb_eq. lia.
Qed.

Lemma isDot_spec c : isDot c = true <-> c = 46%N.
Proof.
  unfold isDot, strFromChar, Equal. rewrite bool_decide_eq_true.
  cbn. split; [now intros [= <-]|now intros ->].
Qed.

Lemma isHexStart_spec c : isHexStart c = true <-> c = 120%N \/ c = 88%N.
Proof.
  unfold isHexStart, strFromChar. cbn.
  rewrite !orb_true_iff, !andb_true_iff, !N.eqb_eq. intuition congruence.
Qed.

(** Anything that starts with neither a digit nor a dot falls through to
    the last line of [initialState]. *)
Lemma Lex_not_a_number c rest :
  isNumber c = false -> isDot c = false -> Lex (c :: rest) = Some [EOF].
Proof.
  intros Hn Hd. rewrite <- (run_enough 2) by lia. rewrite run_step.
  cbn [call length]. rewrite bool_decide_eq_false_2 by discriminate.
  change (index (c :: rest) 0) with c. now rewrite Hn, Hd.
Qed.

(** A digit followed by [x] or [X] and at least one more code unit goes
    to [hexadecimalState], which accepts the whole input. *)
Lemma Lex_digit_x d x rest :
  isNumber d = true -> isHexStart x = true -> rest <> [] ->
  Lex (d :: x :: rest) =
  Some [mkTokval token.Hexadecimal (d :: x :: rest); EOF].
Proof.
  intros Hd Hx Hrest. rewrite <- (run_enough 2) by lia. rewrite run_step.
  assert (Hnx : isNumber x = false).
  { destruct (isNumber x) eqn:E; [|reflexivity].
    apply isNumber_spec in E. apply isHexStart_spec in Hx. lia. }
  assert (Hdx : isDot x = false).
  { destruct (isDot x) eqn:E; [|reflexivity].
    apply isDot_spec in E. apply isHexStart_spec in Hx. lia. }
  assert (Hstep : call (initialState (d :: x :: rest)) =
                  hexadecimalState (d :: x :: rest) 1).
  { cbn [call length]. rewrite bool_decide_eq_false_2 by discriminate.
    change (index (d :: x :: rest) 0) with d. rewrite Hd.
    unfold numberState.
    replace (isEOF (d :: x :: rest) 1) with false
      by (symmetry; apply isEOF_false; simpl; lia).
    change (index (d :: x :: rest) 1) with x. rewrite Hnx, Hdx, Hx.
    replace (isEOF (d :: x :: rest) (1 + 1)) with false; [reflexivity|].
    symmetry. apply isEOF_false. destruct rest; [done|simpl; lia]. }
  rewrite Hstep, hexadecimalState_eq. cbn [fst snd].
  now rewrite run_step, call_empty.
Qed.

End LexerClaims.

(** * Facts about the evaluator *)

Section EvaluatorFacts.
Import utf16 types abad.
Local Open Scope go_scope.

Context {Ext : Type}.
Context (Call : FunId -> Object -> list Value -> World Ext
                -> Value * World Ext).
Context `{!Stringer Str, !Stringer Value, !Stringer Kind,
          !Stringer token.Type_, !Stringer ast.Node}.
Context (boxPrimitive : Value -> M Ext Object).
Variable a : Abad.

Abbreviation eval := (abad.eval Call boxPrimitive a).
Abbreviation evalExpr := (abad.evalExpr Call boxPrimitive a).
Abbreviation ToObject := (abad.ToObject boxPrimitive).

(** [eval] hands every expression to [evalExpr], as the source does. *)
Lemma eval_unfold n :
  eval n =
  if ast.IsExpr n then evalExpr n
  else match n with
       | ast.Program Nodes => evalProgram eval Nodes
       | _ => panic ("AST(" +:+ sprint n +:+ ") not implemented")
       end.
Proof. destruct n; reflexivity. Qed.

Lemma evalExpr_unfold n :
  evalExpr n =
  if negb (ast.IsExpr n) then panic "internal error: not an expression"
  else evalExpr_switch Call boxPrimitive a eval evalExpr n.
Proof. destruct n; reflexivity. Qed.

Lemma eval_expr n : ast.IsExpr n = true -> eval n = evalExpr n.
Proof. intros E. now rewrite eval_unfold, E. Qed.

Lemma bind_ok {A B} (m : M Ext A) (k : A -> M Ext B) w v w1 :
  m w = (Ok v, w1) -> bind m k w = k v w1.
Proof. unfold bind. now intros ->. Qed.

Lemma bind_err {A B} (m : M Ext A) (k : A -> M Ext B) w e w1 :
  m w = (Err e, w1) -> bind m k w = (Err e, w1).
Proof. unfold bind. now intros ->. Qed.

Lemma bind_raise {A B} (m : M Ext A) (k : A -> M Ext B) w x w1 :
  m w = (raise x, w1) -> bind m k w = (raise x, w1).
Proof. unfold bind. intros ->. now destruct x. Qed.

Lemma not_raised {A} (o : outcome A) :
  (exists v, o = Ok v) \/ (exists x, o = raise x).
Proof.
  destruct o as [v|e|p]; [left; eauto|right..].
  - now exists (Returned e).
  - now exists (Panicked p).
Qed.

Section Sequences.
Variable f : ast.Node -> M Ext Value.

Lemma evaluated_length nodes w vs w' :
  evaluated f nodes w vs w' -> length vs = length nodes.
Proof. induction 1; simpl; congruence. Qed.

Lemma evaluated_app l1 l2 w vs1 w1 vs2 w2 :
  evaluated f l1 w vs1 w1 -> evaluated f l2 w1 vs2 w2 ->
  evaluated f (l1 ++ l2) w (vs1 ++ vs2) w2.
Proof.
  induction 1 as [|n ns w v w1 vs w3 Hn _ IH]; intros H2; simpl.
  - exact H2.
  - econstructor; [exact Hn|]. now apply IH.
Qed.

(** A run that stops, stops at a definite node: everything to its left
    succeeded, in order, and the node itself did not. *)
Lemma stopped_split nodes w x w' :
  stopped f nodes w x w' <->
  exists pre s post vs w1,
    nodes = pre ++ s :: post /\ evaluated f pre w vs w1 /\
    f s w1 = (raise x, w').
Proof.
  split.
  - induction 1 as [n ns w x w1 Hn|n ns w v w1 x w2 Hn _ IH].
    + exists [], n, ns, [], w. repeat split; [constructor|done].
    + destruct IH as (pre & s & post & vs & w3 & -> & Hpre & Hs).
      exists (n :: pre), s, post, (v :: vs), w3.
      repeat split; [econstructor; eauto|done].
  - intros (pre & s & post & vs & w1 & -> & Hpre & Hs).
    induction Hpre as [w|n ns w v w1 vs w2 Hn _ IH]; simpl.
    + now constructor.
    + eapply stopped_later; eauto.
Qed.

(** Every run either gets through the whole list or stops. *)
Lemma evaluated_or_stopped nodes w :
  (exists vs w', evaluated f nodes w vs w') \/
  (exists x w', stopped f nodes w x w').
Proof.
  revert w. induction nodes as [|n ns IH]; intros w.
  - left. exists [], w. constructor.
  - destruct (f n w) as [o w1] eqn:Hn.
    destruct (not_raised o) as [[v ->]|[x ->]].
    + destruct (IH w1) as [(vs & w' & Hvs)|(x & w' & Hst)].
      * left. exists (v :: vs), w'. econstructor; eauto.
      * right. exists x, w'. eapply stopped_later; eauto.
    + right. exists x, w1. now constructor.
Qed.

(** And never both. *)
Lemma evaluated_not_stopped nodes w vs w' x w'' :
  evaluated f nodes w vs w' -> stopped f nodes w x w'' -> False.
Proof.
  induction 1 as [|n ns w v w1 vs w2 Hn _ IH]; inversion 1; subst.
  - destruct x; cbn in *; congruence.
  - congruence.
Qed.

(** The loop of [evalProgram] over a run that gets through. *)
Lemma evalProgram_loop_evaluated nodes w vs w' result :
  evaluated f nodes w vs w' ->
  evalProgram_loop f nodes result w = (Ok (default result (last vs)), w').
Proof.
  intros Hrun. revert result.
  induction Hrun as [|n ns w v w1 vs w2 Hn _ IH]; intros result.
  - reflexivity.
  - cbn [evalProgram_loop]. rewrite (bind_ok _ _ _ _ _ Hn), IH.
    rewrite last_cons. now destruct (last vs).
Qed.

(** The loop of [evalProgram] over a run that stops. *)
Lemma evalProgram_loop_stopped nodes w x w' result :
  stopped f nodes w x w' ->
  evalProgram_loop f nodes result w = (raise x, w').
Proof.
  intros Hrun. revert result.
  induction Hrun as [n ns w x w1 Hn|n ns w v w1 x w2 Hn _ IH];
    intros result; cbn [evalProgram_loop].
  - now rewrite (bind_raise _ _ _ _ _ Hn).
  - now rewrite (bind_ok _ _ _ _ _ Hn), IH.
Qed.

(** The loop of [evalArgs] appends the values in the order of the
    arguments. *)
Lemma evalArgs_loop_evaluated args w vs w' vargs :
  evaluated f args w vs w' ->
  evalArgs_loop f args vargs w = (Ok (vargs ++ vs), w').
Proof.
  intros Hrun. revert vargs.
  induction Hrun as [|n ns w v w1 vs w2 Hn _ IH]; intros vargs.
  - cbn. now rewrite app_nil_r.
  - cbn [evalArgs_loop]. rewrite (bind_ok _ _ _ _ _ Hn), IH.
    now rewrite <- app_assoc.
Qed.

Lemma evalArgs_loop_stopped args w x w' vargs :
  stopped f args w x w' ->
  evalArgs_loop f args vargs w = (raise x, w').
Proof.
  intros Hrun. revert vargs.
  induction Hrun as [n ns w x w1 Hn|n ns w v w1 x w2 Hn _ IH];
    intros vargs; cbn [evalArgs_loop].
  - now rewrite (bind_raise _ _ _ _ _ Hn).
  - now rewrite (bind_ok _ _ _ _ _ Hn), IH.
Qed.

Lemma stopped_at_error pre s post w vs w1 e w2 :
  evaluated f pre w vs w1 -> f s w1 = (Err e, w2) ->
  stopped f (pre ++ s :: post) w (Returned e) w2.
Proof.
  intros Hpre Hs. apply stopped_split.
  exists pre, s, post, vs, w1. repeat split; done.
Qed.
End Sequences.

Lemma StrictEqual_Undefined v :
  StrictEqual v VUndefined = true <-> v = VUndefined.
Proof. destruct v as [| | | | | |[]]; cbn; split; congruence. Qed.

(** [Get] reads the store and leaves it as it is. *)
Lemma Get_store o name (w : World Ext) r w' :
  Get o name w = (r, w') -> w' = w.
Proof.
  unfold Get. destruct (heap w !! ptr o) as [props|]; [|congruence].
  destruct (props !! name); congruence.
Qed.

Lemma Get_absent o name (w : World Ext) props :
  heap w !! ptr o = Some props -> props !! name = None ->
  Get o name w = (Ok VUndefined, w).
Proof. unfold Get. now intros -> ->. Qed.

Lemma Get_present o name (w : World Ext) props p :
  heap w !! ptr o = Some props -> props !! name = Some p ->
  Get o name w = (Ok (value p), w).
Proof. unfold Get. now intros -> ->. Qed.

Lemma eval_Ident name :
  eval (ast.Ident name) = evalIdentExpr a name.
Proof. reflexivity. Qed.

Lemma eval_Program Nodes :
  eval (ast.Program Nodes) = evalProgram eval Nodes.
Proof. reflexivity. Qed.

Lemma eval_UnaryExpr op e :
  eval (ast.UnaryExpr op e) = evalUnaryExpr eval op e.
Proof. reflexivity. Qed.

Lemma eval_CallExpr c args :
  eval (ast.CallExpr c args) = evalCallExpr Call boxPrimitive evalExpr c args.
Proof. reflexivity. Qed.

(** An identifier bound to anything but Undefined evaluates to it. *)
Lemma evalIdentExpr_defined name w v w' :
  Get (DataObject (global a)) name w = (Ok v, w') -> v <> VUndefined ->
  eval (ast.Ident name) w = (Ok v, w').
Proof.
  intros HGet Hv. rewrite eval_Ident. unfold evalIdentExpr.
  rewrite (bind_ok _ _ _ _ _ HGet).
  destruct (StrictEqual v VUndefined) eqn:E; [|reflexivity].
  now apply StrictEqual_Undefined in E.
Qed.

(** ToObject succeeds on no nil interface. *)
Lemma ToObject_kind v w o w' :
  ToObject v w = (Ok o, w') -> exists k, Kind_of v = Some k.
Proof. destruct v; cbn; try discriminate; eauto. Qed.

(** C1.  A Program runs its statements in source order, each in the
    store its predecessor left.  When all succeed the result is the value
    of the last one; when one returns an error, that error is the result,
    in the store that statement left, whatever follows it; and a run
    either gets through or stops at a first statement that does not
    succeed, whose outcome is the Program's. *)
Theorem evalProgram_last_value_first_error
    (Nodes : list ast.Node) (w : World Ext) :
  (forall vs w',
      evaluated eval Nodes w vs w' ->
      eval (ast.Program Nodes) w = (Ok (default Nil (last vs)), w')) /\
  (forall pre s post vs w1 e w2,
      Nodes = pre ++ s :: post ->
      evaluated eval pre w vs w1 ->
      eval s w1 = (Err e, w2) ->
      eval (ast.Program Nodes) w = (Err e, w2)) /\
  ((exists vs w', evaluated eval Nodes w vs w') \/
   (exists x w', stopped eval Nodes w x w' /\
                 eval (ast.Program Nodes) w = (raise x, w'))).
Proof.
  rewrite eval_Program. unfold evalProgram. split; [|split].
  - intros vs w' Hrun. now apply evalProgram_loop_evaluated.
  - intros pre s post vs w1 e w2 -> Hpre Hs.
    apply (evalProgram_loop_stopped _ _ _ (Returned e)).
    eapply stopped_at_error; eauto.
  - destruct (evaluated_or_stopped eval Nodes w)
      as [Hrun|(x & w' & Hstop)]; [now left|right].
    exists x, w'. split; [exact Hstop|].
    now apply evalProgram_loop_stopped.
Qed.

(** C2.  An Identifier is looked up on the global object; when the lookup
    yields Undefined, because the name is absent or because it is bound
    to Undefined, evaluation fails with "<name> is not defined", and so
    does the unbound identifier zzz with "zzz is not defined". *)
Theorem evalIdentExpr_not_defined (w : World Ext) :
  (forall name v w',
      Get (DataObject (global a)) name w = (Ok v, w') ->
      v = VUndefined ->
      eval (ast.Ident name) w =
      (Err (sprint name +:+ " is not defined"), w')) /\
  (forall name props,
      heap w !! global a = Some props ->
      props !! name = None \/
        (exists p, props !! name = Some p /\ value p = VUndefined) ->
      eval (ast.Ident name) w =
      (Err (sprint name +:+ " is not defined"), w)) /\
  (forall props,
      sprint (S "zzz") = "zzz" ->
      heap w !! global a = Some props ->
      props !! S "zzz" = None ->
      eval (ast.Ident (S "zzz")) w = (Err "zzz is not defined", w)).
Proof.
  assert (Hget : forall name v w',
      Get (DataObject (global a)) name w = (Ok v, w') ->
      v = VUndefined ->
      eval (ast.Ident name) w =
      (Err (sprint name +:+ " is not defined"), w')).
  { intros name v w' HGet ->. rewrite eval_Ident. unfold evalIdentExpr.
    now rewrite (bind_ok _ _ _ _ _ HGet). }
  assert (Hmap : forall name props,
      heap w !! global a = Some props ->
      props !! name = None \/
        (exists p, props !! name = Some p /\ value p = VUndefined) ->
      eval (ast.Ident name) w =
      (Err (sprint name +:+ " is not defined"), w)).
  { intros name props Hheap [Habsent|(p & Hp & Hv)].
    - apply (Hget name VUndefined w); [|reflexivity].
      now apply (Get_absent (DataObject (global a)) name w props).
    - apply (Hget name VUndefined w); [|reflexivity].
      rewrite <- Hv.
      now apply (Get_present (DataObject (global a)) name w props). }
  split; [exact Hget|split; [exact Hmap|]].
  intros props Hshow Hheap Habsent.
  rewrite (Hmap (S "zzz") props Hheap (or_introl Habsent)).
  now rewrite Hshow.
Qed.

(** C3.  Once the callee of a CallExpr is evaluated and accepted as a
    Function, the arguments are evaluated from left to right, each in the
    store the one before it left.  When all succeed, Call is invoked on
    the receiver and the values in order, and its result is the result;
    when an argument returns an error, that error is the result in the
    store that argument left, so Call was not invoked; and the arguments
    either all succeed or the run stops at a first one that does not,
    whose outcome is the CallExpr's. *)
Theorem evalCallExpr_arguments_then_Call
    (Callee : ast.Node) (Args : list ast.Node) (w : World Ext)
    objval w1 obj w2 fun_ :
  evalExpr Callee w = (Ok objval, w1) ->
  ToObject objval w1 = (Ok obj, w2) ->
  asFunction obj = Some fun_ ->
  (forall vs w3,
      evaluated evalExpr Args w2 vs w3 ->
      eval (ast.CallExpr Callee Args) w =
      (Ok (Call fun_ obj vs w3).1, (Call fun_ obj vs w3).2)) /\
  (forall pre arg post vs w3 e w4,
      Args = pre ++ arg :: post ->
      evaluated evalExpr pre w2 vs w3 ->
      evalExpr arg w3 = (Err e, w4) ->
      eval (ast.CallExpr Callee Args) w = (Err e, w4)) /\
  ((exists vs w3, evaluated evalExpr Args w2 vs w3) \/
   (exists x w3, stopped evalExpr Args w2 x w3 /\
                 eval (ast.CallExpr Callee Args) w = (raise x, w3))).
Proof.
  intros Hcallee Hobj Hfun. rewrite eval_CallExpr. unfold evalCallExpr.
  rewrite (bind_ok _ _ _ _ _ Hcallee), (bind_ok _ _ _ _ _ Hobj), Hfun.
  unfold evalArgs.
  assert (Hstop : forall x w3,
      stopped evalExpr Args w2 x w3 ->
      bind (evalArgs_loop evalExpr Args [])
           (fun args => invoke Call fun_ obj args) w2 = (raise x, w3)).
  { intros x w3 Hrun. apply bind_raise.
    now apply evalArgs_loop_stopped. }
  split; [|split].
  - intros vs w3 Hrun.
    rewrite (bind_ok _ _ _ _ _
               (evalArgs_loop_evaluated evalExpr _ _ _ _ [] Hrun)).
    cbn [app]. unfold invoke. now destruct (Call fun_ obj vs w3).
  - intros pre arg post vs w3 e w4 -> Hpre Harg.
    apply (Hstop (Returned e)). eapply stopped_at_error; eauto.
  - destruct (evaluated_or_stopped evalExpr Args w2)
      as [Hrun|(x & w3 & Hrun)]; [now left|right].
    exists x, w3. split; [exact Hrun|]. now apply Hstop.
Qed.

(** C4.  When the callee of a CallExpr evaluates to a value that ToObject
    accepts but whose object is not a Function, evaluation fails with
    "<kind> is not a function", <kind> being the kind of the callee's
    value. *)
Theorem evalCallExpr_not_a_function
    (Callee : ast.Node) (Args : list ast.Node) (w : World Ext)
    objval w1 obj w2 :
  evalExpr Callee w = (Ok objval, w1) ->
  ToObject objval w1 = (Ok obj, w2) ->
  asFunction obj = None ->
  exists k,
    Kind_of objval = Some k /\
    eval (ast.CallExpr Callee Args) w =
    (Err (sprint k +:+ " is not a function"), w2).
Proof.
  intros Hcallee Hobj Hfun.
  destruct (ToObject_kind _ _ _ _ Hobj) as [k Hk].
  exists k. split; [exact Hk|].
  rewrite eval_CallExpr. unfold evalCallExpr.
  rewrite (bind_ok _ _ _ _ _ Hcallee), (bind_ok _ _ _ _ _ Hobj), Hfun.
  unfold KindM. now rewrite Hk.
Qed.

(** C5.  A UnaryExpr evaluates its operand first: an error of the operand
    is the result; a value that is not a Number fails with
    "not a number: <value>"; on a Number n, Minus yields the IEEE-754
    negation of n (the sign of zero flips, NaN stays NaN) and Plus yields
    n itself. *)
Theorem evalUnaryExpr_number_only
    (op : token.Type_) (Operand : ast.Node) (w : World Ext) :
  (forall e w1,
      eval Operand w = (Err e, w1) ->
      eval (ast.UnaryExpr op Operand) w = (Err e, w1)) /\
  (forall v w1,
      eval Operand w = (Ok v, w1) ->
      Kind_of v <> Some KindNumber ->
      eval (ast.UnaryExpr op Operand) w =
      (Err ("not a number: " +:+ sprint v), w1)) /\
  (forall n w1,
      eval Operand w = (Ok (VNumber n), w1) ->
      (op = token.Minus ->
       eval (ast.UnaryExpr op Operand) w = (Ok (VNumber (- n)), w1)) /\
      (op = token.Plus ->
       eval (ast.UnaryExpr op Operand) w = (Ok (VNumber n), w1))) /\
  (forall n, Prim2SF (- n) = SFopp (Prim2SF n)) /\
  (- 0)%float = neg_zero /\ (- neg_zero)%float = 0%float /\
  is_nan (- nan) = true.
Proof.
  rewrite eval_UnaryExpr. unfold evalUnaryExpr. cbv zeta.
  split; [|split; [|split; [|split]]].
  - intros e w1 He. now rewrite (bind_err _ _ _ _ _ He).
  - intros v w1 Hv Hkind. rewrite (bind_ok _ _ _ _ _ Hv).
    destruct v; try reflexivity. now destruct Hkind.
  - intros n w1 Hn. rewrite (bind_ok _ _ _ _ _ Hn).
    split; now intros ->.
  - exact opp_spec.
  - repeat split.
Qed.

End EvaluatorFacts.

(** * The lexer and Bool: what the specification says of them *)

Section LexerTheorems.
Import utf16 lexer.

(** C6.  What the lexer does on the four malformed numeric literals: only
    the empty hexadecimal body [0x] comes out as one Illegal token holding
    the whole input; [0.1.2] and [123e123e123] come out as a Decimal token
    and [0x123456G] as a Hexadecimal token, each followed by EOF. *)
Theorem Lex_malformed_numeric_literals :
  Lex (S "0.1.2") = Some [mkTokval token.Decimal (S "0.1.2"); EOF] /\
  Lex (S "123e123e123") =
    Some [mkTokval token.Decimal (S "123e123e123"); EOF] /\
  Lex (S "0x") = Some [mkTokval token.Illegal (S "0x")] /\
  Lex (S "0x123456G") =
    Some [mkTokval token.Hexadecimal (S "0x123456G"); EOF].
Proof. repeat split; vm_compute; reflexivity. Qed.

(** C7.  What the lexer does on the run of signs [+-+-]: the first code
    unit is neither a digit nor a dot, so the stream is EOF alone, with no
    Plus or Minus token in it. *)
Theorem Lex_run_of_signs :
  Lex (S "+-+-") = Some [EOF] /\
  Lex (S "+-+-") <>
    Some [mkTokval token.Plus (S "+"); mkTokval token.Minus (S "-");
          mkTokval token.Plus (S "+"); mkTokval token.Minus (S "-"); EOF].
Proof. split; [vm_compute; reflexivity|vm_compute; discriminate]. Qed.

(** C9.  An Illegal token is the last token of its stream: the step that
    emits it returns the nil state, and in whatever the loop produces,
    with any fuel and so for [Lex] too, nothing follows it, EOF
    included; and [Lex] always produces a stream. *)
Theorem illegal_token_ends_the_stream (code : Str) :
  (forall tok st,
      call (initialState code) = (tok, st) ->
      Type_ tok = token.Illegal -> st = None) /\
  (forall fuel pre t post,
      run fuel (Some (initialState code)) = Some (pre ++ t :: post) ->
      Type_ t = token.Illegal -> post = []) /\
  (forall pre t post,
      Lex code = Some (pre ++ t :: post) ->
      Type_ t = token.Illegal -> post = []) /\
  (exists toks, Lex code = Some toks).
Proof.
  assert (Hrun : forall fuel pre t post,
      run fuel (Some (initialState code)) = Some (pre ++ t :: post) ->
      Type_ t = token.Illegal -> post = []).
  { intros fuel pre t post Hrun Ht.
    destruct (run_shape _ _ _ Hrun) as [E|[E|[E|E]]];
      destruct pre as [|? [|? [|? ?]]]; simplify_eq/=; done. }
  split; [|split; [exact Hrun|split; [|apply Lex_total]]].
  - intros tok st Hstep Ht. pose proof (call_shape code) as Hshape.
    rewrite Hstep in Hshape. inversion Hshape; subst; done.
  - intros pre t post. unfold Lex. apply Hrun.
Qed.

(** C10.  The hexadecimal rule does not ask for a leading 0: [1x2] is
    lexed as one Hexadecimal token holding the whole input, and so is any
    digit followed by [x] or [X] and at least one more code unit. *)
Theorem hexadecimal_after_any_digit :
  Lex (S "1x2") = Some [mkTokval token.Hexadecimal (S "1x2"); EOF] /\
  (forall d x rest,
      (48 ≤ d ≤ 57)%N -> x = 120%N \/ x = 88%N -> rest <> [] ->
      Lex (d :: x :: rest) =
      Some [mkTokval token.Hexadecimal (d :: x :: rest); EOF]).
Proof.
  split; [vm_compute; reflexivity|].
  intros d x rest Hd Hx Hrest. apply Lex_digit_x; [| |exact Hrest].
  - now apply isNumber_spec.
  - now apply isHexStart_spec.
Qed.

(** C8.  On every Bool, IsFalse answers what IsTrue answers, the
    underlying boolean: true on True and false on False. *)
Theorem Bool_IsFalse_is_IsTrue :
  (forall b : types.Bool,
      types.Bool_.IsFalse b = types.Bool_.IsTrue b /\
      types.Bool_.IsFalse b = b) /\
  types.Bool_.IsFalse types.Bool_.True = true /\
  types.Bool_.IsFalse types.Bool_.False = false.
Proof. split; [intros b; split; reflexivity|split; reflexivity]. Qed.

End LexerTheorems.

(** * Runs on concrete inputs *)

Lemma illegal_token_ends_the_stream_witness :
  lexer.Lex (utf16.S "0x") =
    Some ([] ++ lexer.mkTokval token.Illegal (utf16.S "0x") :: []) /\
  (@nil lexer.Tokval) = [].
Proof.
  assert (H : lexer.Lex (utf16.S "0x") =
    Some ([] ++ lexer.mkTokval token.Illegal (utf16.S "0x") :: []))
    by (vm_compute; reflexivity).
  split; [exact H|].
  exact (proj1 (proj2 (proj2 (illegal_token_ends_the_stream (utf16.S "0x"))))
           [] _ [] H eq_refl).
Defined.

Lemma hexadecimal_after_any_digit_witness :
  lexer.Lex (utf16.S "9X0") =
  Some [lexer.mkTokval token.Hexadecimal (utf16.S "9X0"); lexer.EOF].
Proof.
  apply (proj2 hexadecimal_after_any_digit 57%N 88%N [48%N]).
  - lia.
  - right. reflexivity.
  - discriminate.
Defined.

Section EvaluatorRuns.
Import utf16 types abad.

Import demo (one, two, zzz, console, log).

(** The statement after the failing one is a call that would be logged,
    and the log stays empty. *)
Lemma evalProgram_last_value_first_error_witness :
  evaluated demo.eval [one] demo.w0 [VNumber 1] demo.w0 /\
  demo.eval zzz demo.w0 = (Err "zzz is not defined", demo.w0) /\
  demo.eval
    (ast.Program ([one] ++ zzz :: [ast.CallExpr demo.console_log []]))
    demo.w0
  = (Err "zzz is not defined", demo.w0) /\
  demo.eval (ast.Program [zzz; one]) demo.w0
  = (Err "zzz is not defined", demo.w0) /\
  demo.eval (ast.Program [one; two]) demo.w0 = (Ok (VNumber 2), demo.w0).
Proof.
  assert (H1 : evaluated demo.eval [one] demo.w0 [VNumber 1] demo.w0)
    by (econstructor; [reflexivity|constructor]).
  assert (H2 : demo.eval zzz demo.w0 = (Err "zzz is not defined", demo.w0))
    by (vm_compute; reflexivity).
  assert (H3 : evaluated demo.eval [one; two] demo.w0
                 [VNumber 1; VNumber 2] demo.w0)
    by (econstructor; [reflexivity|];
        econstructor; [reflexivity|constructor]).
  split; [exact H1|split; [exact H2|split; [|split]]].
  - exact (proj1 (proj2 (evalProgram_last_value_first_error
                           demo.Call demo.boxPrimitive demo.a
                           ([one] ++ zzz :: [ast.CallExpr demo.console_log []])
                           demo.w0))
             [one] zzz _ _ _ _ _ eq_refl H1 H2).
  - exact (proj1 (proj2 (evalProgram_last_value_first_error
                           demo.Call demo.boxPrimitive demo.a
                           [zzz; one] demo.w0))
             [] zzz [one] _ _ _ _ eq_refl
             (evaluated_nil _ _) H2).
  - exact (proj1 (evalProgram_last_value_first_error
                    demo.Call demo.boxPrimitive demo.a [one; two] demo.w0)
             _ _ H3).
Defined.

Lemma evalIdentExpr_not_defined_witness :
  sprint (Stringer := demo.showStr) (S "zzz") = "zzz" /\
  heap demo.w0 !! global demo.a =
    Some {[ S "console" := demo.plain (VObject (DataObject 2%positive)) ]} /\
  ({[ S "console" := demo.plain (VObject (DataObject 2%positive)) ]}
     : gmap Str Property) !! S "zzz" = None /\
  demo.eval zzz demo.w0 = (Err "zzz is not defined", demo.w0).
Proof.
  assert (H1 : sprint (Stringer := demo.showStr) (S "zzz") = "zzz")
    by reflexivity.
  assert (H2 : heap demo.w0 !! global demo.a =
            Some {[ S "console" := demo.plain (VObject (DataObject 2%positive)) ]})
    by (vm_compute; reflexivity).
  assert (H3 : ({[ S "console" := demo.plain (VObject (DataObject 2%positive)) ]}
                  : gmap Str Property) !! S "zzz" = None)
    by (vm_compute; reflexivity).
  split; [exact H1|split; [exact H2|split; [exact H3|]]].
  exact (proj2 (proj2 (evalIdentExpr_not_defined
                         demo.Call (Stringer0 := demo.showStr)
                         demo.boxPrimitive demo.a demo.w0))
           _ H1 H2 H3).
Defined.

(** [console.log(1, zzz)] fails on its second argument and the log of
    calls stays empty; [console.log(1, 2)] is called once, with the
    values in order. *)
Lemma evalCallExpr_arguments_then_Call_witness :
  demo.evalExpr demo.console_log demo.w0 = (Ok (VObject log), demo.w0) /\
  abad.ToObject demo.boxPrimitive (VObject log) demo.w0
    = (Ok log, demo.w0) /\
  asFunction log = Some "console.log" /\
  demo.eval (ast.CallExpr demo.console_log ([one] ++ zzz :: [two])) demo.w0
    = (Err "zzz is not defined", demo.w0) /\
  demo.eval (ast.CallExpr demo.console_log [one; two]) demo.w0
    = (Ok VUndefined,
       {| heap := heap demo.w0;
          ext := [("console.log", [VNumber 1; VNumber 2])] |}).
Proof.
  assert (H1 : demo.evalExpr demo.console_log demo.w0
               = (Ok (VObject log), demo.w0)) by (vm_compute; reflexivity).
  assert (H2 : abad.ToObject demo.boxPrimitive (VObject log) demo.w0
               = (Ok log, demo.w0)) by reflexivity.
  assert (H3 : asFunction log = Some "console.log") by reflexivity.
  assert (H4 : evaluated demo.evalExpr [one] demo.w0 [VNumber 1] demo.w0)
    by (econstructor; [reflexivity|constructor]).
  assert (H5 : demo.evalExpr zzz demo.w0
               = (Err "zzz is not defined", demo.w0))
    by (vm_compute; reflexivity).
  assert (H6 : evaluated demo.evalExpr [one; two] demo.w0
                 [VNumber 1; VNumber 2] demo.w0)
    by (econstructor; [reflexivity|];
        econstructor; [reflexivity|constructor]).
  split; [exact H1|split; [exact H2|split; [exact H3|split]]].
  - exact (proj1 (proj2 (evalCallExpr_arguments_then_Call
                           demo.Call demo.boxPrimitive demo.a
                           demo.console_log ([one] ++ zzz :: [two]) demo.w0
                           _ _ _ _ _ H1 H2 H3))
             [one] zzz [two] _ _ _ _ eq_refl H4 H5).
  - exact (proj1 (evalCallExpr_arguments_then_Call
                    demo.Call demo.boxPrimitive demo.a
                    demo.console_log [one; two] demo.w0
                    _ _ _ _ _ H1 H2 H3)
             _ _ H6).
Defined.

(** [console(1)]: the global [console] is an object and no function. *)
Lemma evalCallExpr_not_a_function_witness :
  demo.evalExpr console demo.w0 = (Ok (VObject (DataObject 2%positive)), demo.w0) /\
  abad.ToObject demo.boxPrimitive (VObject (DataObject 2%positive)) demo.w0
    = (Ok (DataObject 2%positive), demo.w0) /\
  asFunction (DataObject 2%positive) = None /\
  exists k,
    Kind_of (VObject (DataObject 2%positive)) = Some k /\
    demo.eval (ast.CallExpr console [one]) demo.w0
    = (Err (demo.showKind k +:+ " is not a function"), demo.w0).
Proof.
  assert (H1 : demo.evalExpr console demo.w0
               = (Ok (VObject (DataObject 2%positive)), demo.w0))
    by (vm_compute; reflexivity).
  assert (H2 : abad.ToObject demo.boxPrimitive
                 (VObject (DataObject 2%positive)) demo.w0
               = (Ok (DataObject 2%positive), demo.w0)) by reflexivity.
  assert (H3 : asFunction (DataObject 2%positive) = None) by reflexivity.
  split; [exact H1|split; [exact H2|split; [exact H3|]]].
  exact (evalCallExpr_not_a_function
           demo.Call (Stringer2 := demo.showKind) demo.boxPrimitive demo.a
           console [one] demo.w0 _ _ _ _ H1 H2 H3).
Defined.

(** [-0] is negative zero, [+1] is 1, and [-console] is no number. *)
Lemma evalUnaryExpr_number_only_witness :
  demo.eval (ast.Number 0 true) demo.w0 = (Ok (VNumber 0), demo.w0) /\
  demo.eval (ast.UnaryExpr token.Minus (ast.Number 0 true)) demo.w0
    = (Ok (VNumber neg_zero), demo.w0) /\
  demo.eval (ast.UnaryExpr token.Plus one) demo.w0
    = (Ok (VNumber 1), demo.w0) /\
  demo.eval console demo.w0 = (Ok (VObject (DataObject 2%positive)), demo.w0) /\
  demo.eval (ast.UnaryExpr token.Minus console) demo.w0
    = (Err "not a number: [object]", demo.w0).
Proof.
  assert (H1 : demo.eval (ast.Number 0 true) demo.w0
               = (Ok (VNumber 0), demo.w0)) by reflexivity.
  assert (H2 : demo.eval one demo.w0 = (Ok (VNumber 1), demo.w0))
    by reflexivity.
  assert (H3 : demo.eval console demo.w0
               = (Ok (VObject (DataObject 2%positive)), demo.w0))
    by (vm_compute; reflexivity).
  split; [exact H1|split; [|split; [|split; [exact H3|]]]].
  - exact (proj1 (proj1 (proj2 (proj2 (evalUnaryExpr_number_only
             demo.Call demo.boxPrimitive demo.a
             token.Minus (ast.Number 0 true) demo.w0))) _ _ H1) eq_refl).
  - exact (proj2 (proj1 (proj2 (proj2 (evalUnaryExpr_number_only
             demo.Call demo.boxPrimitive demo.a
             token.Plus one demo.w0))) _ _ H2) eq_refl).
  - refine (proj1 (proj2 (evalUnaryExpr_number_only
             demo.Call (Stringer1 := demo.showValue)
             demo.boxPrimitive demo.a
             token.Minus console demo.w0)) _ _ H3 _).
    discriminate.
Defined.

End EvaluatorRuns.

(** * More about the lexer *)

Section LexerTable.
Import utf16 lexer.

Lemma Lex_step code :
  Lex code =
  cons (call (initialState code)).1 <$> run 1 (call (initialState code)).2.
Proof. rewrite <- (run_enough 2) by lia. apply run_step. Qed.

Lemma Lex_nil : Lex [] = Some [EOF].
Proof. reflexivity. Qed.

(** What [Lex] answers, read off the first two code units. *)
Lemma Lex_cons c rest :
  Lex (c :: rest) =
  Some (if isNumber c then
          match rest with
          | [] => [mkTokval token.Decimal (c :: rest); EOF]
          | b :: r =>
              if isNumber b || isDot b then
                [mkTokval token.Decimal (c :: rest); EOF]
              else if isHexStart b then
                match r with
                | [] => [mkTokval token.Illegal (c :: rest)]
                | _ :: _ => [mkTokval token.Hexadecimal (c :: rest); EOF]
                end
              else [mkTokval token.Illegal (c :: rest)]
          end
        else if isDot c then [mkTokval token.Decimal (c :: rest); EOF]
        else [EOF]).
Proof.
  rewrite Lex_step. cbn [call length].
  rewrite bool_decide_eq_false_2 by discriminate.
  change (index (c :: rest) 0) with c.
  destruct (isNumber c).
  - unfold numberState. destruct rest as [|b r].
    + reflexivity.
    + replace (isEOF (c :: b :: r) 1) with false
        by (symmetry; apply isEOF_false; simpl; lia).
      change (index (c :: b :: r) 1) with b.
      destruct (isNumber b || isDot b).
      * now rewrite decimalState_eq.
      * destruct (isHexStart b); [|reflexivity].
        destruct r as [|b' r]; [reflexivity|].
        replace (isEOF (c :: b :: b' :: r) (1 + 1)) with false
          by (symmetry; apply isEOF_false; simpl; lia).
        now rewrite hexadecimalState_eq.
  - destruct (isDot c); [|reflexivity]. now rewrite decimalState_eq.
Qed.

(** X1.  Whatever the input, the stream of [Lex] has one or two tokens, its
    last token is EOF or Illegal, and every token other than EOF carries
    the whole input as its lexeme. *)
Theorem Lex_stream_invariants (code : Str) (toks : list Tokval) :
  Lex code = Some toks ->
  (1 ≤ length toks ≤ 2)%nat /\
  (exists t, last toks = Some t /\
             (t = EOF \/ Type_ t = token.Illegal)) /\
  (forall t, t ∈ toks -> t = EOF \/ Value t = code).
Proof.
  intros H. apply run_shape in H.
  destruct H as [-> | [-> | [-> | ->]]]; (split; [simpl; lia|split]);
    try (eexists; split; [reflexivity|]; auto);
    intros t Ht; repeat (apply elem_of_cons in Ht as [->|Ht]; auto);
    now apply elem_of_nil in Ht.
Qed.

(** X2.  [Lex] answers EOF alone exactly on the empty input and on input
    whose first code unit is neither a digit nor a dot. *)
Theorem Lex_only_EOF_iff (code : Str) :
  Lex code = Some [EOF] <->
  code = [] \/
  exists c rest, code = c :: rest /\ isNumber c = false /\ isDot c = false.
Proof.
  destruct code as [|c rest].
  - split; [now left|reflexivity].
  - rewrite Lex_cons. split.
    + intros H. right. exists c, rest.
      destruct (isNumber c), (isDot c); repeat case_match; simplify_eq; done.
    + intros [?|(c' & rest' & E & Hn & Hd)]; [done|].
      injection E as <- <-. now rewrite Hn, Hd.
Qed.

(** X3.  [Lex] answers one Decimal token holding the input, then EOF,
    exactly when the input starts with a dot, or is a single digit, or
    starts with a digit followed by a digit or a dot; nothing after the
    second code unit is looked at. *)
Theorem Lex_Decimal_iff (code : Str) :
  Lex code = Some [mkTokval token.Decimal code; EOF] <->
  exists c rest,
    code = c :: rest /\
    ((isNumber c = false /\ isDot c = true) \/
     (isNumber c = true /\ rest = []) \/
     (isNumber c = true /\
      exists b r, rest = b :: r /\ isNumber b || isDot b = true)).
Proof.
  destruct code as [|c rest].
  - split; [discriminate|]. now intros (c & rest & E & _).
  - rewrite Lex_cons. split.
    + intros H. exists c, rest. split; [reflexivity|].
      destruct (isNumber c) eqn:Ec.
      * right. destruct rest as [|b r]; [now left|right].
        split; [reflexivity|]. exists b, r. split; [reflexivity|].
        destruct (isNumber b || isDot b); [reflexivity|].
        repeat case_match; simplify_eq.
      * left. destruct (isDot c); [done|simplify_eq].
    + intros (c' & rest' & E & H). injection E as <- <-.
      destruct H as [[-> ->] | [[-> ->] | [-> (b & r & -> & ->)]]]; reflexivity.
Qed.

(** X4.  [Lex] answers one Illegal token holding the input, and nothing
    else, exactly when the input starts with a digit whose successor is
    neither a digit nor a dot, and is either no [x] or [X] or is the last
    code unit. *)
Theorem Lex_Illegal_iff (code : Str) :
  Lex code = Some [mkTokval token.Illegal code] <->
  exists c b r,
    code = c :: b :: r /\ isNumber c = true /\
    isNumber b || isDot b = false /\
    (isHexStart b = false \/ r = []).
Proof.
  destruct code as [|c rest].
  - split; [discriminate|]. now intros (c & b & r & E & _).
  - rewrite Lex_cons. split.
    + intros H. destruct (isNumber c) eqn:Ec; [|case_match; simplify_eq].
      destruct rest as [|b r]; [simplify_eq|].
      exists c, b, r. split; [reflexivity|split; [exact Ec|]].
      destruct (isNumber b || isDot b); [simplify_eq|].
      split; [reflexivity|].
      destruct (isHexStart b); [|now left].
      destruct r; [now right|simplify_eq].
    + intros (c' & b & r & E & Hc & Hb & Hx). injection E as <- ->.
      rewrite Hc, Hb.
      destruct Hx as [-> | ->]; [reflexivity|]. now destruct (isHexStart b).
Qed.

(** X5.  [Lex] answers one Hexadecimal token holding the input, then EOF,
    exactly when the input is a digit, then [x] or [X], then at least one
    more code unit of any kind. *)
Theorem Lex_Hexadecimal_iff (code : Str) :
  Lex code = Some [mkTokval token.Hexadecimal code; EOF] <->
  exists c b r,
    code = c :: b :: r /\ isNumber c = true /\ isHexStart b = true /\
    r <> [].
Proof.
  destruct code as [|c rest].
  - split; [discriminate|]. now intros (c & b & r & E & _).
  - rewrite Lex_cons. split.
    + intros H. destruct (isNumber c) eqn:Ec; [|case_match; simplify_eq].
      destruct rest as [|b r]; [simplify_eq|].
      exists c, b, r. split; [reflexivity|split; [exact Ec|]].
      destruct (isNumber b || isDot b); [simplify_eq|].
      destruct (isHexStart b) eqn:Eb; [|simplify_eq].
      split; [reflexivity|]. destruct r; [simplify_eq|done].
    + intros (c' & b & r & E & Hc & Hb & Hr). injection E as <- ->.
      rewrite Hc.
      assert (isNumber b || isDot b = false) as ->.
      { apply isHexStart_spec in Hb. apply orb_false_iff. split.
        - destruct (isNumber b) eqn:E; [|done].
          apply isNumber_spec in E. lia.
        - destruct (isDot b) eqn:E; [|done]. apply isDot_spec in E. lia. }
      rewrite Hb. now destruct r.
Qed.

(** X6.  The kinds of the tokens depend on the first two code units and on
    whether a third one exists, and on nothing else: two inputs that agree
    on their first two code units and both go on after them get the same
    kinds. *)
Theorem Lex_blind_after_two (a b : N) (r1 r2 : Str) :
  r1 <> [] -> r2 <> [] ->
  map Type_ <$> Lex (a :: b :: r1) = map Type_ <$> Lex (a :: b :: r2).
Proof.
  intros H1 H2. rewrite !Lex_cons.
  destruct r1 as [|x1 r1]; [done|]. destruct r2 as [|x2 r2]; [done|].
  now repeat case_match.
Qed.

(** X7.  The three character tests are the ranges they stand for: the
    ASCII digits, the dot, and the letters x and X; no code unit passes two
    of them. *)
Theorem character_classes (c : N) :
  (isNumber c = true <-> (48 ≤ c ≤ 57)%N) /\
  (isDot c = true <-> c = 46%N) /\
  (isHexStart c = true <-> c = 120%N \/ c = 88%N) /\
  (isNumber c && isDot c = false) /\
  (isNumber c && isHexStart c = false) /\
  (isDot c && isHexStart c = false).
Proof.
  pose proof (isNumber_spec c) as Hn. pose proof (isDot_spec c) as Hd.
  pose proof (isHexStart_spec c) as Hx.
  repeat split; try tauto;
    destruct (isNumber c), (isDot c), (isHexStart c); try reflexivity;
    exfalso; lia.
Qed.

End LexerTable.

Section LexerBounds.
Import utf16 lexer.

Lemma from_in_range code position :
  (position ≤ length code)%nat ->
  checked.from code position = Some (drop position code).
Proof. intros H. unfold checked.from. now rewrite bool_decide_eq_true_2. Qed.

Lemma from_out_of_range code position :
  (length code < position)%nat -> checked.from code position = None.
Proof.
  intros H. unfold checked.from. rewrite bool_decide_eq_false_2; [done|lia].
Qed.

Lemma at_in_range code position :
  isEOF code position = false ->
  checked.at_ code position = Some (index code position).
Proof. apply index_in_range. Qed.

Lemma checked_decimalState code position :
  (position ≤ length code)%nat ->
  checked.decimalState code position = Some (decimalState code position).
Proof.
  intros H. unfold checked.decimalState, decimalState. cbv zeta.
  rewrite from_in_range; [reflexivity|]. rewrite toEOF_spec by lia. lia.
Qed.

Lemma checked_hexadecimalState code position :
  (position ≤ length code)%nat ->
  checked.hexadecimalState code position =
  Some (hexadecimalState code position).
Proof.
  intros H. unfold checked.hexadecimalState, hexadecimalState. cbv zeta.
  rewrite from_in_range; [reflexivity|]. rewrite toEOF_spec by lia. lia.
Qed.

Lemma checked_numberState code position :
  (position ≤ length code)%nat ->
  checked.numberState code position = Some (numberState code position).
Proof.
  intros H. unfold checked.numberState, numberState.
  destruct (isEOF code position) eqn:E.
  - now rewrite from_in_range.
  - rewrite (at_in_range _ _ E). cbn [mbind option_bind].
    apply isEOF_false in E.
    destruct (isNumber _ || isDot _).
    + apply checked_decimalState. lia.
    + destruct (isHexStart _); [|reflexivity].
      destruct (isEOF code (position + 1)); [reflexivity|].
      now apply checked_hexadecimalState.
Qed.

Lemma checked_call st : checked.call st = Some (call st).
Proof.
  destruct st as [code]. cbn [checked.call call].
  case_bool_decide as Hlen; [reflexivity|].
  assert (E : isEOF code 0 = false)
    by (apply isEOF_false; destruct code; [done|simpl; lia]).
  rewrite (at_in_range _ _ E). cbn [mbind option_bind].
  apply isEOF_false in E.
  destruct (isNumber _); [apply checked_numberState; lia|].
  destruct (isDot _); [|reflexivity]. apply checked_decimalState. lia.
Qed.

(** X8.  The lexer never indexes or slices its input out of range: with
    Go's bounds checks written out, every step from a state that
    [initialState] built, and so every run of the loop of [Lex], goes
    through without a panic and gives what the unchecked functions give. *)
Theorem Lex_never_out_of_range :
  (forall st, checked.call st = Some (call st)) /\
  (forall fuel st, checked.run fuel st = Some (run fuel st)).
Proof.
  split; [exact checked_call|].
  induction fuel as [|fuel IH]; intros [st|]; try reflexivity.
  cbn [checked.run run]. rewrite checked_call.
  destruct (call st) as [token newState]. now rewrite IH.
Qed.

(** X9.  The three state functions are safe exactly up to the end of the
    input.  Called with a position within the input or at its end, they do
    not panic, and [decimalState] and [hexadecimalState] always hand the
    empty rest to the next state: nothing after a number is ever lexed.
    Called with a position past the end, all three panic at their slice
    expression. *)
Theorem state_functions_bounds (code : Str) (position : nat) :
  ((position ≤ length code)%nat ->
   checked.numberState code position = Some (numberState code position) /\
   checked.decimalState code position =
     Some (mkTokval token.Decimal code, Some (initialState [])) /\
   checked.hexadecimalState code position =
     Some (mkTokval token.Hexadecimal code, Some (initialState []))) /\
  ((length code < position)%nat ->
   checked.numberState code position = None /\
   checked.decimalState code position = None /\
   checked.hexadecimalState code position = None).
Proof.
  split; intros H.
  - split; [now apply checked_numberState|].
    rewrite checked_decimalState, checked_hexadecimalState by done.
    now rewrite decimalState_eq, hexadecimalState_eq.
  - assert (Hpos : toEOF (length code - position) code position = position).
    { replace (length code - position)%nat with 0%nat by lia. reflexivity. }
    split; [|split].
    + unfold checked.numberState.
      replace (isEOF code position) with true
        by (symmetry; apply isEOF_true; lia).
      now rewrite from_out_of_range.
    + unfold checked.decimalState. cbv zeta. rewrite Hpos.
      now rewrite from_out_of_range.
    + unfold checked.hexadecimalState. cbv zeta. rewrite Hpos.
      now rewrite from_out_of_range.
Qed.

End LexerBounds.

Lemma Lex_stream_invariants_witness :
  lexer.Lex (utf16.S "12ab") =
    Some [lexer.mkTokval token.Decimal (utf16.S "12ab"); lexer.EOF] /\
  (1 ≤ 2 ≤ 2)%nat /\
  (exists t, Some lexer.EOF = Some t /\
             (t = lexer.EOF \/ lexer.Type_ t = token.Illegal)) /\
  (forall t,
      t ∈ [lexer.mkTokval token.Decimal (utf16.S "12ab"); lexer.EOF] ->
      t = lexer.EOF \/ lexer.Value t = utf16.S "12ab").
Proof.
  assert (H : lexer.Lex (utf16.S "12ab") =
    Some [lexer.mkTokval token.Decimal (utf16.S "12ab"); lexer.EOF])
    by (vm_compute; reflexivity).
  split; [exact H|].
  exact (Lex_stream_invariants (utf16.S "12ab") _ H).
Defined.

Lemma Lex_blind_after_two_witness :
  map lexer.Type_ <$> lexer.Lex (utf16.S "0x1F") =
  map lexer.Type_ <$> lexer.Lex (utf16.S "0x!? not hex").
Proof.
  apply (Lex_blind_after_two 48%N 120%N); discriminate.
Defined.

Lemma state_functions_bounds_witness :
  checked.decimalState (utf16.S "1.5") 2 =
    Some (lexer.mkTokval token.Decimal (utf16.S "1.5"),
          Some (lexer.initialState [])) /\
  checked.decimalState (utf16.S "1.5") 4 = None.
Proof.
  split.
  - apply (proj1 (state_functions_bounds (utf16.S "1.5") 2)). simpl. lia.
  - apply (proj2 (state_functions_bounds (utf16.S "1.5") 4)). simpl. lia.
Defined.

(** * More about the evaluator *)

(** Induction over syntax trees, with the hypothesis for every statement of
    a program, for the operand of a unary expression, for the object of a
    member expression and for the callee and every argument of a call. *)
Section NodeInduction.
Variable P : ast.Node -> Prop.
Hypothesis HProgram : forall Nodes, Forall P Nodes -> P (ast.Program Nodes).
Hypothesis HNumber : forall v i, P (ast.Number v i).
Hypothesis HString : forall s, P (ast.String s).
Hypothesis HBool : forall b, P (ast.Bool b).
Hypothesis HNull : P ast.Null.
Hypothesis HUndefined : P ast.Undefined.
Hypothesis HIdent : forall name, P (ast.Ident name).
Hypothesis HUnaryExpr : forall op e, P e -> P (ast.UnaryExpr op e).
Hypothesis HMemberExpr : forall o p, P o -> P (ast.MemberExpr o p).
Hypothesis HCallExpr :
  forall c args, P c -> Forall P args -> P (ast.CallExpr c args).
Hypothesis HVarDecl : forall name v, P (ast.VarDecl name v).
Hypothesis HVarDecls : forall vars, P (ast.VarDecls vars).
Hypothesis HFunDecl : forall name args body, P (ast.FunDecl name args body).

Fixpoint Node_induction (n : ast.Node) : P n :=
  let all :=
    fix all (l : list ast.Node) : Forall P l :=
      match l with
      | [] => @List.Forall_nil _ P
      | x :: l' => @List.Forall_cons _ P x l' (Node_induction x) (all l')
      end in
  match n with
  | ast.Program Nodes => HProgram Nodes (all Nodes)
  | ast.Number v i => HNumber v i
  | ast.String s => HString s
  | ast.Bool b => HBool b
  | ast.Null => HNull
  | ast.Undefined => HUndefined
  | ast.Ident name => HIdent name
  | ast.UnaryExpr op e => HUnaryExpr op e (Node_induction e)
  | ast.MemberExpr o p => HMemberExpr o p (Node_induction o)
  | ast.CallExpr c args => HCallExpr c args (Node_induction c) (all args)
  | ast.VarDecl name v => HVarDecl name v
  | ast.VarDecls vars => HVarDecls vars
  | ast.FunDecl name args body => HFunDecl name args body
  end.
End NodeInduction.

Lemma opp_involutive (n : float) : (- - n)%float = n.
Proof.
  apply Prim2SF_inj. rewrite !opp_spec.
  destruct (Prim2SF n); cbn; rewrite ?negb_involutive; reflexivity.
Qed.

Section EvaluatorMore.
Import utf16 types abad.
Local Open Scope go_scope.

Context {Ext : Type}.
Context (Call : FunId -> Object -> list Value -> World Ext
                -> Value * World Ext).
Context `{!Stringer Str, !Stringer Value, !Stringer Kind,
          !Stringer token.Type_, !Stringer ast.Node}.
Context (boxPrimitive : Value -> M Ext Object).
Variable a : Abad.

Abbreviation eval := (abad.eval Call boxPrimitive a).
Abbreviation evalExpr := (abad.evalExpr Call boxPrimitive a).

Lemma eval_MemberExpr o p :
  eval (ast.MemberExpr o p) = evalMemberExpr boxPrimitive evalExpr o p.
Proof. reflexivity. Qed.

(** X10.  An identifier evaluates to a value exactly when the global object
    yields that value for its name and the value is not Undefined; the
    store is the one the lookup left. *)
Theorem evalIdentExpr_value_iff (name : Str) (w : World Ext) v w' :
  eval (ast.Ident name) w = (Ok v, w') <->
  Get (DataObject (global a)) name w = (Ok v, w') /\ v <> VUndefined.
Proof.
  split.
  - change (eval (ast.Ident name)) with (evalIdentExpr (Ext := Ext) a name).
    unfold evalIdentExpr, bind.
    destruct (Get (DataObject (global a)) name w) as [[val| |] w1];
      try discriminate.
    destruct (StrictEqual val VUndefined) eqn:E; [discriminate|].
    intros [= <- <-]. split; [reflexivity|].
    intros ->. now rewrite (proj2 (StrictEqual_Undefined VUndefined)) in E.
  - intros [HGet Hv]. now apply evalIdentExpr_defined.
Qed.

(** X11.  Member access on an object reads its property map: a stored
    property gives its value, Undefined included, and an absent one gives
    Undefined; neither is an error, and the store stays the one the object
    expression left. *)
Theorem evalMemberExpr_reads_property
    (obj : ast.Node) (prop : Str) (w : World Ext) o w1 props :
  evalExpr obj w = (Ok (VObject o), w1) ->
  heap w1 !! ptr o = Some props ->
  eval (ast.MemberExpr obj prop) w =
  (Ok (match props !! prop with
       | Some p => value p
       | None => VUndefined
       end), w1).
Proof.
  intros Hobj Hheap. rewrite eval_MemberExpr. unfold evalMemberExpr.
  rewrite (bind_ok _ _ _ _ _ Hobj).
  unfold KindM, abad.ToObject, bind, ret, Get. cbn [Kind_of].
  rewrite bool_decide_eq_false_2 by (intros Hne; now apply Hne).
  rewrite Hheap. now destruct (props !! prop).
Qed.

(** X12.  Member access on a value that is not an object panics with
    "wrapping primitive values not implemented yet", in the store the
    object expression left, whatever boxing would do. *)
Theorem evalMemberExpr_on_primitive
    (obj : ast.Node) (prop : Str) (w : World Ext) v w1 k :
  evalExpr obj w = (Ok v, w1) ->
  Kind_of v = Some k -> k <> KindObject ->
  eval (ast.MemberExpr obj prop) w =
  (Panic "wrapping primitive values not implemented yet", w1).
Proof.
  intros Hobj Hk Hne. rewrite eval_MemberExpr. unfold evalMemberExpr.
  rewrite (bind_ok _ _ _ _ _ Hobj). unfold KindM. rewrite Hk. cbn.
  now rewrite bool_decide_eq_true_2.
Qed.

(** X13.  String, boolean, null and undefined literals and the variable and
    function declarations have no rule: evaluating one panics and leaves
    the store as it was, through [eval] and through [evalExpr]. *)
Theorem unsupported_nodes_panic (n : ast.Node) (w : World Ext) :
  shape.unsupported n = true ->
  (exists msg, eval n w = (Panic msg, w)) /\
  (exists msg, evalExpr n w = (Panic msg, w)).
Proof. destruct n; try discriminate; intros _; split; eexists; reflexivity. Qed.

(** X14.  A unary expression only ever evaluates to a Number: when it
    succeeds, its operator is Plus or Minus, its operand evaluated to a
    Number in the same store, and the result is that number or its
    negation. *)
Theorem evalUnaryExpr_yields_numbers
    (op : token.Type_) (e : ast.Node) (w : World Ext) v w' :
  eval (ast.UnaryExpr op e) w = (Ok v, w') ->
  exists m,
    eval e w = (Ok (VNumber m), w') /\
    ((op = token.Plus /\ v = VNumber m) \/
     (op = token.Minus /\ v = VNumber (- m))).
Proof.
  rewrite eval_UnaryExpr. unfold evalUnaryExpr, bind. cbv zeta.
  destruct (eval e w) as [[obj| |] w1]; try discriminate.
  destruct obj as [|m| | | | |]; try discriminate.
  destruct op; try discriminate; intros [= <- <-]; exists m; auto.
Qed.

(** X15.  Unary operators compose as signs do, on every operand and in
    every store, errors and panics included: minus minus is plus, plus is
    neutral. *)
Theorem unary_signs_compose (e : ast.Node) (w : World Ext) :
  eval (ast.UnaryExpr token.Minus (ast.UnaryExpr token.Minus e)) w
    = eval (ast.UnaryExpr token.Plus e) w /\
  eval (ast.UnaryExpr token.Minus (ast.UnaryExpr token.Plus e)) w
    = eval (ast.UnaryExpr token.Minus e) w /\
  eval (ast.UnaryExpr token.Plus (ast.UnaryExpr token.Minus e)) w
    = eval (ast.UnaryExpr token.Minus e) w /\
  eval (ast.UnaryExpr token.Plus (ast.UnaryExpr token.Plus e)) w
    = eval (ast.UnaryExpr token.Plus e) w.
Proof.
  repeat split;
    rewrite (eval_UnaryExpr Call boxPrimitive a _ (ast.UnaryExpr _ e));
    unfold evalUnaryExpr at 1; unfold bind at 1; cbv zeta;
    rewrite !eval_UnaryExpr; unfold evalUnaryExpr, bind; cbv zeta;
    destruct (eval e w) as [[[]| |] w1]; cbn;
    rewrite ?opp_involutive; reflexivity.
Qed.

Section Loops.
Variable f : ast.Node -> M Ext Value.

Lemma evaluated_unique nodes w vs1 w1 vs2 w2 :
  evaluated f nodes w vs1 w1 -> evaluated f nodes w vs2 w2 ->
  vs1 = vs2 /\ w1 = w2.
Proof.
  intros H1. revert vs2 w2.
  induction H1 as [|n ns w v w1 vs w3 Hn _ IH]; intros vs2 w2 H2;
    inversion H2; subst; [done|].
  match goal with
  | H : f n w = (Ok ?v', ?w') |- _ => rewrite Hn in H; injection H as <- <-
  end.
  match goal with
  | H : evaluated f ns w1 _ _ |- _ => destruct (IH _ _ H) as [-> ->]
  end. done.
Qed.

Lemma evalArgs_ok_iff args w vs w' :
  evalArgs f args w = (Ok vs, w') <-> evaluated f args w vs w'.
Proof.
  unfold evalArgs. split.
  - intros H.
    destruct (evaluated_or_stopped f args w)
      as [(vs0 & w0 & Hrun)|(x & w0 & Hrun)].
    + rewrite (evalArgs_loop_evaluated f _ _ _ _ [] Hrun) in H.
      now injection H as <- <-.
    + rewrite (evalArgs_loop_stopped f _ _ _ _ [] Hrun) in H.
      now destruct x.
  - intros Hrun. now rewrite (evalArgs_loop_evaluated f _ _ _ _ [] Hrun).
Qed.

Lemma evalProgram_loop_app l1 l2 result w :
  evalProgram_loop f (l1 ++ l2) result w =
  bind (evalProgram_loop f l1 result)
       (fun result => evalProgram_loop f l2 result) w.
Proof.
  revert result w. induction l1 as [|n l1 IH]; intros result w.
  - reflexivity.
  - cbn [app evalProgram_loop]. unfold bind.
    destruct (f n w) as [[v| |] w1]; try reflexivity.
    rewrite IH. reflexivity.
Qed.

Lemma evalProgram_loop_forgets l result result' w :
  l <> [] ->
  evalProgram_loop f l result w = evalProgram_loop f l result' w.
Proof. now destruct l. Qed.

End Loops.

(** X16.  [evalArgs] succeeds exactly on the runs in which every argument
    succeeds from left to right, each in the store its left neighbour
    left; it then returns one value for each argument, in the order of the
    arguments. *)
Theorem evalArgs_one_value_each (args : list ast.Node) (w : World Ext) vs w' :
  (evalArgs evalExpr args w = (Ok vs, w') <->
   evaluated evalExpr args w vs w') /\
  (evalArgs evalExpr args w = (Ok vs, w') -> length vs = length args).
Proof.
  split; [apply evalArgs_ok_iff|].
  intros H%evalArgs_ok_iff. eapply evaluated_length, H.
Qed.

(** X17.  Programs compose by running one after the other: evaluating the
    statements [l1 ++ l2] is evaluating [l1] and, when that succeeds and
    [l2] has a statement, evaluating [l2] in the store [l1] left; a
    failure of [l1] is the failure of the whole, and with no statement in
    [l2] the value of [l1] stands. *)
Theorem evalProgram_app (l1 l2 : list ast.Node) (w : World Ext) :
  eval (ast.Program (l1 ++ l2)) w =
  match eval (ast.Program l1) w with
  | (Ok v, w1) =>
      match l2 with
      | [] => (Ok v, w1)
      | _ :: _ => eval (ast.Program l2) w1
      end
  | (Err e, w1) => (Err e, w1)
  | (Panic p, w1) => (Panic p, w1)
  end.
Proof.
  rewrite !eval_Program. unfold evalProgram.
  rewrite evalProgram_loop_app. unfold bind.
  destruct (evalProgram_loop eval l1 Nil w) as [[v| |] w1]; try reflexivity.
  destruct l2 as [|n l2]; [reflexivity|].
  now apply evalProgram_loop_forgets.
Qed.

(** X18.  Evaluation changes the store through calls only: on a tree with
    no call expression in it, [eval] and [evalExpr] leave the store exactly
    as they found it, whatever the outcome. *)
Theorem callFree_keeps_store (n : ast.Node) :
  shape.callFree n = true ->
  forall w : World Ext, (eval n w).2 = w /\ (evalExpr n w).2 = w.
Proof.
  induction n as [Nodes IH| | | | | |name|op e IH|o p IH|c args _ _| | |]
    using Node_induction; intros Hfree w; try (split; reflexivity).
  - split; [|reflexivity]. rewrite eval_Program. unfold evalProgram.
    generalize Nil as result. revert w.
    cbn [shape.callFree] in Hfree.
    induction IH as [|n ns Hn _ IHns]; intros w result; [reflexivity|].
    cbn [forallb] in Hfree. apply andb_true_iff in Hfree as [Hn' Hns'].
    cbn [evalProgram_loop]. unfold bind.
    pose proof (proj1 (Hn Hn' w)) as Hw.
    destruct (eval n w) as [[v| |] w1]; cbn [snd] in Hw; subst w1;
      try reflexivity.
    now apply IHns.
  - assert (E : (eval (ast.Ident name) w).2 = w).
    { rewrite eval_Ident. unfold evalIdentExpr, bind.
      destruct (Get (DataObject (global a)) name w) as [r w1] eqn:HGet.
      apply Get_store in HGet as ->.
      destruct r as [val| |]; try reflexivity.
      now destruct (StrictEqual val VUndefined). }
    split; exact E.
  - cbn [shape.callFree] in Hfree.
    assert (E : (eval (ast.UnaryExpr op e) w).2 = w).
    { rewrite eval_UnaryExpr. unfold evalUnaryExpr, bind. cbv zeta.
      pose proof (proj1 (IH Hfree w)) as Hw.
      destruct (eval e w) as [[obj| |] w1]; cbn [snd] in Hw; subst w1;
        try reflexivity.
      destruct obj; try reflexivity. now destruct op. }
    split; exact E.
  - cbn [shape.callFree] in Hfree.
    assert (E : (eval (ast.MemberExpr o p) w).2 = w).
    { rewrite eval_MemberExpr. unfold evalMemberExpr, bind.
      pose proof (proj2 (IH Hfree w)) as Hw.
      destruct (evalExpr o w) as [[objval| |] w1]; cbn [snd] in Hw; subst w1;
        try reflexivity.
      destruct objval as [| | | | | |obj]; try reflexivity.
      unfold KindM, abad.ToObject, ret. cbn [Kind_of].
      rewrite bool_decide_eq_false_2 by (intros Hne; now apply Hne).
      destruct (Get obj p w) as [r w1] eqn:HGet.
      now apply Get_store in HGet as ->. }
    split; exact E.
  - discriminate.
Qed.

End EvaluatorMore.

(** * The first revision of the evaluator, and the second against it *)

Section FirstRevision.
Import utf16 types.

Context `{!Stringer Str, !Stringer Value, !Stringer Kind,
          !Stringer token.Type_, !Stringer ast.Node}.

(** X19.  In the first revision an identifier evaluates to whatever the map
    of variables holds under its name, Undefined included, and fails with
    "<name> is not defined" exactly when the name is no key of the map; in
    the interpreter [NewAbad] builds, the one name defined is [a], bound to
    666. *)
Theorem first_revision_identifiers (a0 : abad0.Abad) (name : Str) :
  (forall v, abad0.vars a0 !! sprint name = Some v ->
             abad0.eval a0 (ast.Ident name) = Ok v) /\
  (abad0.vars a0 !! sprint name = None <->
   abad0.eval a0 (ast.Ident name) =
     Err (sprint name +:+ " is not defined")) /\
  (forall filename,
      abad0.eval (abad0.NewAbad filename) (ast.Ident name) =
      if bool_decide (sprint name = "a") then Ok (VNumber 666)
      else Err (sprint name +:+ " is not defined")).
Proof.
  cbn [abad0.eval]. unfold abad0.evalIdentExpr. split; [|split].
  - now intros v ->.
  - split; [now intros ->|].
    now destruct (abad0.vars a0 !! sprint name).
  - intros filename. cbn [abad0.NewAbad abad0.vars].
    case_bool_decide as E.
    + rewrite E. now rewrite lookup_singleton_eq.
    + now rewrite lookup_singleton_ne.
Qed.

Section Agreement.
Context {Ext : Type}.
Context (Call : FunId -> Object -> list Value -> World Ext
                -> Value * World Ext).
Context (boxPrimitive : Value -> M Ext Object).


End Agreement.
End FirstRevision.

(** * Building the interpreter *)

Section Construction.
Import utf16 types abad construction.

Context {Ext : Type}.
Context (Call : FunId -> Object -> list Value -> World Ext
                -> Value * World Ext).
Context `{!Stringer Str, !Stringer Value, !Stringer Kind,
          !Stringer token.Type_, !Stringer ast.Node}.
Context (boxPrimitive : Value -> M Ext Object).
Context (NewConsole : M Ext Value).
Context (newProperty : Value -> bool -> Property).

(** X21.  When the console is built and [Put] stores the value it is given,
    [NewAbad] succeeds with an interpreter whose global object is a new
    object, every older object and the rest of the store being left as the
    console's construction left them; that global object holds the console
    under [console] and nothing else, so the identifier [console]
    evaluates to the console and every other identifier is not defined. *)
Theorem NewAbad_global_holds_console
    (filename : string) (w : World Ext) c w1 :
  NewConsole w = (Ok c, w1) ->
  value (newProperty c true) = c ->
  exists a w2,
    NewAbad NewConsole newProperty filename w = (Ok a, w2) /\
    abad.filename a = filename /\
    heap w1 !! global a = None /\
    ext w2 = ext w1 /\
    (forall p, p <> global a -> heap w2 !! p = heap w1 !! p) /\
    Get (DataObject (global a)) consoleAttr w2 = (Ok c, w2) /\
    (forall name,
        name <> consoleAttr ->
        abad.eval Call boxPrimitive a (ast.Ident name) w2 =
        (Err (sprint name +:+ " is not defined"), w2)) /\
    (c <> VUndefined ->
     abad.eval Call boxPrimitive a (ast.Ident consoleAttr) w2 = (Ok c, w2)).
Proof.
  intros Hconsole Hvalue.
  set (g := fresh (dom (heap w1))).
  assert (Hfresh : heap w1 !! g = None)
    by (apply not_elem_of_dom, is_fresh).
  set (w2 := {| heap := <[g := {[consoleAttr := newProperty c true]}]>
                          (heap w1);
                ext := ext w1 |}).
  assert (Hrun : NewAbad NewConsole newProperty filename w =
                 (Ok {| abad.filename := filename; global := g |}, w2)).
  { unfold NewAbad, setup, bind. rewrite Hconsole.
    unfold NewBaseDataObject, Put, ret. cbn [ptr heap ext]. fold g.
    rewrite lookup_insert_eq. unfold w2. do 2 f_equal.
    now rewrite insert_insert_eq, insert_empty. }
  assert (HGet : forall name,
      Get (DataObject g) name w2 =
      (Ok (if bool_decide (name = consoleAttr) then c else VUndefined), w2)).
  { intros name. unfold Get. cbn [ptr heap w2].
    rewrite lookup_insert_eq. case_bool_decide as E.
    - subst name. now rewrite lookup_singleton_eq, Hvalue.
    - now rewrite lookup_singleton_ne. }
  exists {| abad.filename := filename; global := g |}, w2.
  split; [exact Hrun|]. split; [reflexivity|]. split; [exact Hfresh|].
  split; [reflexivity|]. split; [|split; [|split]].
  - intros p Hp. cbn [heap w2 global] in *. now rewrite lookup_insert_ne.
  - cbn [global]. rewrite HGet. now rewrite bool_decide_eq_true_2.
  - intros name Hname.
    rewrite eval_Ident. unfold evalIdentExpr. cbn [global].
    erewrite bind_ok by apply HGet.
    now rewrite bool_decide_eq_false_2.
  - intros Hc. apply evalIdentExpr_defined; [|exact Hc].
    cbn [global]. rewrite HGet. now rewrite bool_decide_eq_true_2.
Qed.

End Construction.

(** * The rest of Bool *)

Section BoolMore.
Import types.

(** X22.  The conversions of a Bool keep its value apart: [Equal] decides
    equality, [ToNumber] and [ToString] send the two Bools to different
    results, [ToNumber] is zero exactly on the Bool that is not true, and
    that zero is the positive one. *)
Theorem Bool_conversions_keep_the_value (a b : Bool) :
  (Bool_.Equal a b = true <-> a = b) /\
  (Bool_conv.ToNumber a = Bool_conv.ToNumber b <-> a = b) /\
  (Bool_conv.ToString a = Bool_conv.ToString b <-> a = b) /\
  PrimFloat.is_zero (Bool_conv.ToNumber a) = negb (Bool_.IsTrue a) /\
  (Bool_.IsTrue a = false -> Bool_conv.ToNumber a = 0%float) /\
  Bool_.ToBool (Bool_.NewBool a) = a.
Proof.
  split; [apply bool_decide_eq_true|].
  split; [|split; [|split; [|split]]].
  - split; [|now intros ->].
    destruct a, b; try reflexivity; intros H;
      apply (f_equal PrimFloat.is_zero) in H; vm_compute in H;
      discriminate.
  - split; [|now intros ->].
    destruct a, b; try reflexivity; vm_compute; discriminate.
  - now destruct a.
  - unfold Bool_.IsTrue. now intros ->.
  - reflexivity.
Qed.

End BoolMore.

(** * More runs on concrete inputs *)

Section MoreRuns.
Import utf16 types abad.

Lemma evalMemberExpr_reads_property_witness :
  demo.evalExpr demo.console demo.w0
    = (Ok (VObject (DataObject 2%positive)), demo.w0) /\
  heap demo.w0 !! ptr (DataObject 2%positive) =
    Some {[ S "log" := demo.plain (VObject demo.log) ]} /\
  demo.eval samples.console_foo demo.w0 = (Ok VUndefined, demo.w0) /\
  demo.eval demo.console_log demo.w0 = (Ok (VObject demo.log), demo.w0).
Proof.
  assert (H1 : demo.evalExpr demo.console demo.w0
               = (Ok (VObject (DataObject 2%positive)), demo.w0))
    by (vm_compute; reflexivity).
  assert (H2 : heap demo.w0 !! ptr (DataObject 2%positive) =
               Some {[ S "log" := demo.plain (VObject demo.log) ]})
    by (vm_compute; reflexivity).
  split; [exact H1|split; [exact H2|split]].
  - exact (evalMemberExpr_reads_property
             demo.Call demo.boxPrimitive demo.a
             demo.console (S "foo") demo.w0 _ _ _ H1 H2).
  - exact (evalMemberExpr_reads_property
             demo.Call demo.boxPrimitive demo.a
             demo.console (S "log") demo.w0 _ _ _ H1 H2).
Defined.

Lemma evalMemberExpr_on_primitive_witness :
  demo.evalExpr demo.one demo.w0 = (Ok (VNumber 1), demo.w0) /\
  Kind_of (VNumber 1) = Some KindNumber /\
  KindNumber <> KindObject /\
  demo.eval (ast.MemberExpr demo.one (S "toFixed")) demo.w0 =
  (Panic "wrapping primitive values not implemented yet", demo.w0).
Proof.
  assert (H1 : demo.evalExpr demo.one demo.w0 = (Ok (VNumber 1), demo.w0))
    by reflexivity.
  assert (H3 : KindNumber <> KindObject) by discriminate.
  split; [exact H1|split; [reflexivity|split; [exact H3|]]].
  exact (evalMemberExpr_on_primitive
           demo.Call demo.boxPrimitive demo.a
           demo.one (S "toFixed") demo.w0 _ _ _ H1 eq_refl H3).
Defined.

Lemma unsupported_nodes_panic_witness :
  shape.unsupported (ast.String (S "hello")) = true /\
  (exists msg, demo.eval (ast.String (S "hello")) demo.w0
               = (Panic msg, demo.w0)) /\
  (exists msg, demo.evalExpr (ast.String (S "hello")) demo.w0
               = (Panic msg, demo.w0)).
Proof.
  split; [reflexivity|].
  exact (unsupported_nodes_panic
           demo.Call (Stringer4 := demo.showNode) demo.boxPrimitive demo.a
           (ast.String (S "hello")) demo.w0 eq_refl).
Defined.

Lemma evalUnaryExpr_yields_numbers_witness :
  demo.eval (ast.UnaryExpr token.Minus demo.two) demo.w0
    = (Ok (VNumber (-2)), demo.w0) /\
  exists m,
    demo.eval demo.two demo.w0 = (Ok (VNumber m), demo.w0) /\
    ((token.Minus = token.Plus /\ VNumber (-2) = VNumber m) \/
     (token.Minus = token.Minus /\ VNumber (-2) = VNumber (- m))).
Proof.
  assert (H : demo.eval (ast.UnaryExpr token.Minus demo.two) demo.w0
              = (Ok (VNumber (-2)), demo.w0)) by reflexivity.
  split; [exact H|].
  exact (evalUnaryExpr_yields_numbers
           demo.Call (Stringer1 := demo.showValue)
           (Stringer3 := demo.showType) demo.boxPrimitive demo.a
           token.Minus demo.two demo.w0 _ _ H).
Defined.

Lemma evalArgs_one_value_each_witness :
  abad.evalArgs demo.evalExpr [demo.one; demo.console; demo.two] demo.w0
    = (Ok [VNumber 1; VObject (DataObject 2%positive); VNumber 2], demo.w0) /\
  length [VNumber 1; VObject (DataObject 2%positive); VNumber 2] =
  length [demo.one; demo.console; demo.two].
Proof.
  assert (H : abad.evalArgs demo.evalExpr
                [demo.one; demo.console; demo.two] demo.w0
              = (Ok [VNumber 1; VObject (DataObject 2%positive); VNumber 2],
                 demo.w0)) by (vm_compute; reflexivity).
  split; [exact H|].
  exact (proj2 (evalArgs_one_value_each
                  demo.Call demo.boxPrimitive demo.a
                  [demo.one; demo.console; demo.two] demo.w0 _ _) H).
Defined.

Lemma callFree_keeps_store_witness :
  shape.callFree
    (ast.Program [demo.one; samples.console_foo;
                  ast.UnaryExpr token.Minus demo.console]) = true /\
  (demo.eval
     (ast.Program [demo.one; samples.console_foo;
                   ast.UnaryExpr token.Minus demo.console]) demo.w0).2
  = demo.w0.
Proof.
  split; [reflexivity|].
  exact (proj1 (callFree_keeps_store
                  demo.Call demo.boxPrimitive demo.a
                  (ast.Program [demo.one; samples.console_foo;
                                ast.UnaryExpr token.Minus demo.console])
                  eq_refl demo.w0)).
Defined.

Lemma first_revision_identifiers_witness :
  abad0.vars (abad0.NewAbad "tests.js")
    !! sprint (Stringer := demo.showStr) (S "a") = Some (VNumber 666) /\
  abad0.eval (Stringer0 := demo.showStr) (Stringer1 := demo.showValue)
    (Stringer2 := demo.showType) (Stringer3 := demo.showNode)
    (abad0.NewAbad "tests.js") (ast.Ident (S "a")) = Ok (VNumber 666).
Proof.
  assert (H : abad0.vars (abad0.NewAbad "tests.js")
                !! sprint (Stringer := demo.showStr) (S "a")
              = Some (VNumber 666)) by (vm_compute; reflexivity).
  split; [exact H|].
  exact (proj1 (first_revision_identifiers
                  (Stringer0 := demo.showStr) (Stringer1 := demo.showValue)
                  (Stringer3 := demo.showType) (Stringer4 := demo.showNode)
                  (abad0.NewAbad "tests.js") (S "a")) _ H).
Defined.

End MoreRuns.

Section MoreRuns2.
Import utf16 types abad.


Lemma NewAbad_global_holds_console_witness :
  samples.NewConsole demo.w0 = (Ok (VObject demo.log), demo.w0) /\
  value (samples.newProperty (VObject demo.log) true) = VObject demo.log /\
  exists a w2,
    construction.NewAbad samples.NewConsole samples.newProperty
      "tests.js" demo.w0 = (Ok a, w2) /\
    heap demo.w0 !! global a = None /\
    abad.eval demo.Call (Stringer0 := demo.showStr)
      (Stringer1 := demo.showValue) (Stringer2 := demo.showKind)
      (Stringer3 := demo.showType) (Stringer4 := demo.showNode)
      demo.boxPrimitive a demo.zzz w2
    = (Err "zzz is not defined", w2) /\
    abad.eval demo.Call (Stringer0 := demo.showStr)
      (Stringer1 := demo.showValue) (Stringer2 := demo.showKind)
      (Stringer3 := demo.showType) (Stringer4 := demo.showNode)
      demo.boxPrimitive a demo.console w2
    = (Ok (VObject demo.log), w2).
Proof.
  split; [reflexivity|split; [reflexivity|]].
  destruct (NewAbad_global_holds_console
              demo.Call (Stringer0 := demo.showStr)
              (Stringer1 := demo.showValue) (Stringer2 := demo.showKind)
              (Stringer3 := demo.showType) (Stringer4 := demo.showNode)
              demo.boxPrimitive samples.NewConsole samples.newProperty
              "tests.js" demo.w0 _ _ eq_refl eq_refl)
    as (a & w2 & Hrun & _ & Hnew & _ & _ & _ & Hother & Hconsole).
  exists a, w2. split; [exact Hrun|split; [exact Hnew|split]].
  - apply (Hother (S "zzz")). discriminate.
  - apply Hconsole. discriminate.
Defined.

End MoreRuns2.

Section CallInversion.
Import utf16 types abad.
Local Open Scope go_scope.

Context {Ext : Type}.
Context (Call : FunId -> Object -> list Value -> World Ext
                -> Value * World Ext).
Context `{!Stringer Str, !Stringer Value, !Stringer Kind,
          !Stringer token.Type_, !Stringer ast.Node}.
Context (boxPrimitive : Value -> M Ext Object).
Variable a : Abad.

Abbreviation eval := (abad.eval Call boxPrimitive a).
Abbreviation evalExpr := (abad.evalExpr Call boxPrimitive a).

(** X23.  A call expression yields a value only through [Call]: when it
    succeeds, the callee evaluated to a value, [ToObject] accepted it, the
    object is a Function, every argument succeeded from left to right, and
    the value and the final store are what [Call] returned for that
    object and those values. *)
Theorem evalCallExpr_succeeds_only_through_Call
    (Callee : ast.Node) (Args : list ast.Node) (w : World Ext) v w' :
  eval (ast.CallExpr Callee Args) w = (Ok v, w') ->
  exists objval w1 obj w2 fun_ vs w3,
    evalExpr Callee w = (Ok objval, w1) /\
    abad.ToObject boxPrimitive objval w1 = (Ok obj, w2) /\
    asFunction obj = Some fun_ /\
    evaluated evalExpr Args w2 vs w3 /\
    Call fun_ obj vs w3 = (v, w').
Proof.
  rewrite eval_CallExpr. unfold evalCallExpr. unfold bind at 1.
  destruct (evalExpr Callee w) as [[objval| |] w1] eqn:Hcallee;
    try discriminate.
  unfold bind at 1.
  destruct (abad.ToObject boxPrimitive objval w1) as [[obj| |] w2] eqn:Hobj;
    try discriminate.
  destruct (asFunction obj) as [fun_|] eqn:Hfun.
  - unfold bind.
    destruct (evalArgs evalExpr Args w2) as [[vs| |] w3] eqn:Hargs;
      try discriminate.
    unfold invoke. destruct (Call fun_ obj vs w3) as [v0 w4] eqn:HCall.
    intros [= <- <-]. apply evalArgs_ok_iff in Hargs.
    exists objval, w1, obj, w2, fun_, vs, w3. repeat split; assumption.
  - unfold bind, KindM. destruct (Kind_of objval); discriminate.
Qed.

End CallInversion.

Section LexerKinds.
Import utf16 lexer.

(** X24.  [Lex] knows four kinds of token: whatever the input, every token
    of its stream is a Decimal, a Hexadecimal, an Illegal or the EOF
    token; no other kind, a sign or an identifier for one, ever comes
    out. *)
Theorem Lex_token_kinds (code : Str) (toks : list Tokval) (t : Tokval) :
  Lex code = Some toks -> t ∈ toks ->
  Type_ t = token.Decimal \/ Type_ t = token.Hexadecimal \/
  Type_ t = token.Illegal \/ Type_ t = token.EOF.
Proof.
  intros H Ht. apply run_shape in H.
  destruct H as [-> | [-> | [-> | ->]]];
    repeat (apply elem_of_cons in Ht as [-> | Ht]; [cbn; auto|]);
    now apply elem_of_nil in Ht.
Qed.

End LexerKinds.

Lemma evalCallExpr_succeeds_only_through_Call_witness :
  demo.eval (ast.CallExpr demo.console_log [demo.one]) demo.w0
    = (types.Ok types.VUndefined,
       {| types.heap := types.heap demo.w0;
          types.ext := [("console.log"%string, [types.VNumber 1])] |}) /\
  exists objval w1 obj w2 fun_ vs w3,
    demo.evalExpr demo.console_log demo.w0 = (types.Ok objval, w1) /\
    abad.ToObject demo.boxPrimitive objval w1 = (types.Ok obj, w2) /\
    types.asFunction obj = Some fun_ /\
    abad.evaluated demo.evalExpr [demo.one] w2 vs w3 /\
    demo.Call fun_ obj vs w3
    = (types.VUndefined,
       {| types.heap := types.heap demo.w0;
          types.ext := [("console.log"%string, [types.VNumber 1])] |}).
Proof.
  assert (H : demo.eval (ast.CallExpr demo.console_log [demo.one]) demo.w0
    = (types.Ok types.VUndefined,
       {| types.heap := types.heap demo.w0;
          types.ext := [("console.log"%string, [types.VNumber 1])] |}))
    by (vm_compute; reflexivity).
  split; [exact H|].
  exact (evalCallExpr_succeeds_only_through_Call
           demo.Call (Stringer2 := demo.showKind) demo.boxPrimitive demo.a
           demo.console_log [demo.one] demo.w0 _ _ H).
Defined.

Lemma Lex_token_kinds_witness :
  lexer.Lex (utf16.S "7up") =
    Some [lexer.mkTokval token.Illegal (utf16.S "7up")] /\
  lexer.mkTokval token.Illegal (utf16.S "7up")
    ∈ [lexer.mkTokval token.Illegal (utf16.S "7up")] /\
  (token.Illegal = token.Decimal \/ token.Illegal = token.Hexadecimal \/
   token.Illegal = token.Illegal \/ token.Illegal = token.EOF).
Proof.
  assert (H : lexer.Lex (utf16.S "7up") =
    Some [lexer.mkTokval token.Illegal (utf16.S "7up")])
    by (vm_compute; reflexivity).
  assert (Hin : lexer.mkTokval token.Illegal (utf16.S "7up")
                  ∈ [lexer.mkTokval token.Illegal (utf16.S "7up")])
    by apply list_elem_of_here.
  split; [exact H|split; [exact Hin|]].
  exact (Lex_token_kinds (utf16.S "7up") _ _ H Hin).
Defined.
